(** * Stride haptic command pipeline: DRV2605L driver and haptic service

    A shallow embedding of [drv2605l.c] (the register-level driver) and of
    [haptic_service.c] (BLE command decoder, pattern table and request
    FIFO), followed by the properties of the pipeline.

    Conventions of the embedding:
    - C integers are [Z]; a [uint8_t] is a [Z] in [0, 255];
    - a C function returning [int] and touching the driver statics or the
      I2C bus is a function [drv_state -> Z * drv_state];
    - a nullable pointer to a byte array is an [option (list Z)];
    - the I2C bus is an environment: the n-th transaction issued since boot
      gets the reply [i2c_reply env n]; every transaction attempted is
      appended to [bus_log]. *)

From Stdlib Require Import ZArith List Bool Lia.
Import ListNotations.
Local Open Scope Z_scope.

(** ** errno values (Zephyr [errno.h]) *)

Module Errno.
Definition EIO : Z := 5.
Definition ENOMEM : Z := 12.
Definition ENODEV : Z := 19.
Definition EINVAL : Z := 22.
Definition ETIMEDOUT : Z := 116.
Definition ENOTSUP : Z := 134.
End Errno.
Import Errno.

(** [a[i]] on a byte array. Reads past the end do not occur on the guarded
    paths; the embedding yields 0 there. *)
Definition idx (a : list Z) (i : Z) : Z := nth (Z.to_nat i) a 0.

(** Conversion to [uint8_t]. *)
Definition uint8 (x : Z) : Z := x mod 256.

(** [effect < 1 || effect > 123], the range test shared by both layers. *)
Definition effect_out_of_range (effect : Z) : bool :=
  (effect <? 1) || (effect >? 123).

(** ** The driver, [drv2605l.h] / [drv2605l.c] *)

Module Drv2605l.

(** Register addresses. *)
Definition DRV2605L_REG_STATUS : Z := 0x00.
Definition DRV2605L_REG_MODE : Z := 0x01.
Definition DRV2605L_REG_LIBRARY : Z := 0x03.
Definition DRV2605L_REG_WAVESEQ1 : Z := 0x04.
Definition DRV2605L_REG_WAVESEQ2 : Z := 0x05.
Definition DRV2605L_REG_WAVESEQ8 : Z := 0x0B.
Definition DRV2605L_REG_GO : Z := 0x0C.
Definition DRV2605L_REG_RATEDV : Z := 0x16.
Definition DRV2605L_REG_CLAMPV : Z := 0x17.
Definition DRV2605L_REG_FEEDBACK : Z := 0x1A.
Definition DRV2605L_REG_CONTROL1 : Z := 0x1B.
Definition DRV2605L_REG_CONTROL2 : Z := 0x1C.
Definition DRV2605L_REG_CONTROL3 : Z := 0x1D.

(** Mode register values. *)
Definition DRV2605L_MODE_INTTRIG : Z := 0x00.
Definition DRV2605L_MODE_AUTOCAL : Z := 0x07.
Definition DRV2605L_MODE_STANDBY : Z := 0x40.

(** Library selection. *)
Definition DRV2605L_LIB_ERM : Z := 0x01.
Definition DRV2605L_LIB_LRA : Z := 0x06.

(** Maximum waveform sequence length. *)
Definition DRV2605L_MAX_WAVEFORM_SEQ : Z := 8.

Inductive drv2605l_motor_type_t : Set :=
| DRV2605L_MOTOR_ERM
| DRV2605L_MOTOR_LRA.

Definition motor_eqb (a b : drv2605l_motor_type_t) : bool :=
  match a, b with
  | DRV2605L_MOTOR_ERM, DRV2605L_MOTOR_ERM => true
  | DRV2605L_MOTOR_LRA, DRV2605L_MOTOR_LRA => true
  | _, _ => false
  end.

(** One I2C transaction as seen on the bus, with the return code of the
    Zephyr call ([ret < 0] is a failure). *)
Inductive bus_event : Set :=
| BusWrite (reg value ret : Z)
| BusRead (reg ret value : Z).

(** The hardware side: whether the bus device is ready, and the reply
    (return code, byte read) to the n-th transaction. *)
Record i2c_env : Type := {
  bus_ready : bool;
  i2c_reply : nat -> Z * Z
}.

(** The driver statics [initialized] and [motor_type], and the trace of
    bus transactions. *)
Record drv_state : Set := {
  initialized : bool;
  motor_type : drv2605l_motor_type_t;
  bus_log : list bus_event
}.

Definition log_event (e : bus_event) (s : drv_state) : drv_state :=
  {| initialized := initialized s;
     motor_type := motor_type s;
     bus_log := bus_log s ++ [e] |}.

(** *** Function bodies with early return

    [body A] is a piece of a C function body: it either executes a
    [return r] ([inl r]) or falls through with a value ([inr a]). *)

Definition body (A : Type) : Type := drv_state -> (Z + A) * drv_state.

Definition Return {A : Type} (r : Z) : body A := fun s => (inl r, s).

Definition pure {A : Type} (a : A) : body A := fun s => (inr a, s).

Definition bind {A B : Type} (m : body A) (k : A -> body B) : body B :=
  fun s =>
    match m s with
    | (inl r, s') => (inl r, s')
    | (inr a, s') => k a s'
    end.

Definition call {A : Type} (f : drv_state -> A * drv_state) : body A :=
  fun s => let (a, s') := f s in (inr a, s').

Notation "x <- m ;; k" := (bind m (fun x => k))
  (at level 61, m at next level, right associativity).
Notation "m ;;; k" := (bind m (fun _ => k))
  (at level 61, right associativity).

(** [ret = f(...); if (ret < 0) { return ret; }] *)
Definition check (f : drv_state -> Z * drv_state) : body unit :=
  ret <- call f ;;
  if ret <? 0 then Return ret else pure tt.

(** A whole function: every path of the body ends in a [return]. *)
Definition cfun (b : body Empty_set) : drv_state -> Z * drv_state :=
  fun s =>
    match b s with
    | (inl r, s') => (r, s')
    | (inr e, _) => match e with end
    end.

Section Driver.

Variable env : i2c_env.

Definition i2c_write_dt (reg value : Z) (s : drv_state) : Z * drv_state :=
  let ret := fst (i2c_reply env (length (bus_log s))) in
  (ret, log_event (BusWrite reg value ret) s).

Definition i2c_write_read_dt (reg : Z) (s : drv_state)
  : (Z * Z) * drv_state :=
  let '(ret, value) := i2c_reply env (length (bus_log s)) in
  ((ret, value), log_event (BusRead reg ret value) s).

Definition drv2605l_write_reg (reg value : Z) : drv_state -> Z * drv_state :=
  cfun (
    ret <- call (i2c_write_dt reg value) ;;
    if ret <? 0 then Return ret else
    Return 0).

(** Returns the return code and the byte stored through [value]. *)
Definition drv2605l_read_reg (reg : Z) (s : drv_state)
  : (Z * Z) * drv_state :=
  let '((ret, value), s') := i2c_write_read_dt reg s in
  if ret <? 0 then ((ret, value), s') else ((0, value), s').

Definition set_motor_type (type : drv2605l_motor_type_t) (s : drv_state)
  : unit * drv_state :=
  (tt, {| initialized := initialized s;
          motor_type := type;
          bus_log := bus_log s |}).

Definition set_initialized (b : bool) (s : drv_state) : unit * drv_state :=
  (tt, {| initialized := b;
          motor_type := motor_type s;
          bus_log := bus_log s |}).

Definition get_initialized (s : drv_state) : bool * drv_state :=
  (initialized s, s).

Definition get_motor_type (s : drv_state)
  : drv2605l_motor_type_t * drv_state :=
  (motor_type s, s).

Definition drv2605l_init (type : drv2605l_motor_type_t)
  : drv_state -> Z * drv_state :=
  cfun (
    if negb (bus_ready env) then Return (- ENODEV) else
    call (set_motor_type type) ;;;
    (* Read status register to verify communication *)
    rs <- call (drv2605l_read_reg DRV2605L_REG_STATUS) ;;
    if fst rs <? 0 then Return (fst rs) else
    (* Exit standby mode *)
    check (drv2605l_write_reg DRV2605L_REG_MODE DRV2605L_MODE_INTTRIG) ;;;
    (* Select library based on motor type *)
    let library := if motor_eqb type DRV2605L_MOTOR_LRA
                   then DRV2605L_LIB_LRA else DRV2605L_LIB_ERM in
    check (drv2605l_write_reg DRV2605L_REG_LIBRARY library) ;;;
    (* Configure feedback control for motor type *)
    let feedback := if motor_eqb type DRV2605L_MOTOR_LRA
                    then 0x80 else 0x00 in
    check (drv2605l_write_reg DRV2605L_REG_FEEDBACK feedback) ;;;
    (* Set rated voltage and overdrive clamp (default values for ERM) *)
    (if motor_eqb type DRV2605L_MOTOR_ERM then
       check (drv2605l_write_reg DRV2605L_REG_RATEDV 0x90) ;;;
       check (drv2605l_write_reg DRV2605L_REG_CLAMPV 0xFF)
     else pure tt) ;;;
    (* Configure control registers *)
    check (drv2605l_write_reg DRV2605L_REG_CONTROL1 0x93) ;;;
    check (drv2605l_write_reg DRV2605L_REG_CONTROL2 0xF5) ;;;
    check (drv2605l_write_reg DRV2605L_REG_CONTROL3 0xA0) ;;;
    call (set_initialized true) ;;;
    Return 0).

Definition drv2605l_play_effect (effect : Z) : drv_state -> Z * drv_state :=
  cfun (
    init <- call get_initialized ;;
    if negb init then Return (- ENODEV) else
    if effect_out_of_range effect then Return (- EINVAL) else
    (* Set the waveform in sequence register 1 *)
    check (drv2605l_write_reg DRV2605L_REG_WAVESEQ1 effect) ;;;
    (* Terminate sequence *)
    check (drv2605l_write_reg DRV2605L_REG_WAVESEQ2 0x00) ;;;
    (* Trigger playback *)
    check (drv2605l_write_reg DRV2605L_REG_GO 0x01) ;;;
    Return 0).

(** [for (uint8_t i = ...; i < count; i++)] of [drv2605l_play_sequence],
    with [n] iterations left to run from index [i]. *)
Fixpoint program_waveform_sequence (effects : list Z) (n : nat) (i : Z)
  : body unit :=
  match n with
  | O => pure tt
  | S n' =>
      if effect_out_of_range (idx effects i) then Return (- EINVAL) else
      check (drv2605l_write_reg (uint8 (DRV2605L_REG_WAVESEQ1 + i))
                                (idx effects i)) ;;;
      program_waveform_sequence effects n' (i + 1)
  end.

Definition drv2605l_play_sequence (effects : option (list Z)) (count : Z)
  : drv_state -> Z * drv_state :=
  cfun (
    init <- call get_initialized ;;
    if negb init then Return (- ENODEV) else
    match effects with
    | None => Return (- EINVAL)
    | Some effects =>
        if count =? 0 then Return (- EINVAL) else
        let count := if count >? DRV2605L_MAX_WAVEFORM_SEQ
                     then DRV2605L_MAX_WAVEFORM_SEQ else count in
        (* Program waveform sequence *)
        program_waveform_sequence effects (Z.to_nat count) 0 ;;;
        (* Terminate sequence *)
        (if count <? DRV2605L_MAX_WAVEFORM_SEQ then
           check (drv2605l_write_reg
                    (uint8 (DRV2605L_REG_WAVESEQ1 + count)) 0x00)
         else pure tt) ;;;
        (* Trigger playback *)
        check (drv2605l_write_reg DRV2605L_REG_GO 0x01) ;;;
        Return 0
    end).

Definition drv2605l_stop : drv_state -> Z * drv_state :=
  cfun (
    init <- call get_initialized ;;
    if negb init then Return (- ENODEV) else
    (* Clear GO bit *)
    check (drv2605l_write_reg DRV2605L_REG_GO 0x00) ;;;
    Return 0).

Definition drv2605l_standby : drv_state -> Z * drv_state :=
  cfun (
    init <- call get_initialized ;;
    if negb init then Return (- ENODEV) else
    check (drv2605l_write_reg DRV2605L_REG_MODE DRV2605L_MODE_STANDBY) ;;;
    Return 0).

Definition drv2605l_wakeup : drv_state -> Z * drv_state :=
  cfun (
    init <- call get_initialized ;;
    if negb init then Return (- ENODEV) else
    check (drv2605l_write_reg DRV2605L_REG_MODE DRV2605L_MODE_INTTRIG) ;;;
    Return 0).

Definition drv2605l_is_playing (s : drv_state) : bool * drv_state :=
  if negb (initialized s) then (false, s) else
  let '((ret, go_bit), s') := drv2605l_read_reg DRV2605L_REG_GO s in
  if ret <? 0 then (false, s') else
  (negb (Z.land go_bit 0x01 =? 0), s').

(** [while (timeout-- > 0) { k_sleep; read GO; if clear, break; }] of
    [drv2605l_auto_calibrate], entered with [timeout] equal to the
    argument; falls through with the value [timeout] has after the loop.
    The 10 ms sleep has no effect on the state modelled here. *)
Fixpoint wait_calibration (timeout : nat) : body Z :=
  match timeout with
  | O => pure (-1)
  | S t =>
      rs <- call (drv2605l_read_reg DRV2605L_REG_GO) ;;
      if fst rs <? 0 then Return (fst rs) else
      if Z.land (snd rs) 0x01 =? 0 then pure (Z.of_nat t)
      else wait_calibration t
  end.

Definition drv2605l_auto_calibrate : drv_state -> Z * drv_state :=
  cfun (
    let timeout := 100%nat in (* 1 second timeout *)
    init <- call get_initialized ;;
    if negb init then Return (- ENODEV) else
    mt <- call get_motor_type ;;
    if negb (motor_eqb mt DRV2605L_MOTOR_LRA) then Return (- ENOTSUP) else
    (* Set to auto-calibration mode *)
    check (drv2605l_write_reg DRV2605L_REG_MODE DRV2605L_MODE_AUTOCAL) ;;;
    (* Trigger calibration *)
    check (drv2605l_write_reg DRV2605L_REG_GO 0x01) ;;;
    (* Wait for calibration to complete *)
    timeout <- wait_calibration timeout ;;
    if timeout <=? 0 then Return (- ETIMEDOUT) else
    (* Check calibration result *)
    rs <- call (drv2605l_read_reg DRV2605L_REG_STATUS) ;;
    if fst rs <? 0 then Return (fst rs) else
    if negb (Z.land (snd rs) 0x08 =? 0) then Return (- EIO) else
    (* Return to internal trigger mode *)
    check (drv2605l_write_reg DRV2605L_REG_MODE DRV2605L_MODE_INTTRIG) ;;;
    Return 0).

End Driver.

End Drv2605l.

(** ** The haptic service, [haptic_service.h] / [haptic_service.c] *)

Module Haptic.

(** Effect numbers used by the predefined patterns ([drv2605l.h]). *)
Definition DRV2605L_EFFECT_STRONG_CLICK_100 : Z := 1.
Definition DRV2605L_EFFECT_SHARP_CLICK_100 : Z := 4.
Definition DRV2605L_EFFECT_SHARP_CLICK_60 : Z := 5.
Definition DRV2605L_EFFECT_SOFT_BUMP_100 : Z := 7.
Definition DRV2605L_EFFECT_SOFT_BUMP_60 : Z := 8.
Definition DRV2605L_EFFECT_DOUBLE_CLICK_100 : Z := 10.
Definition DRV2605L_EFFECT_STRONG_BUZZ_100 : Z := 14.
Definition DRV2605L_EFFECT_PULSING_STRONG_1 : Z := 52.
Definition DRV2605L_EFFECT_TRANSITION_RAMP_DOWN_LONG_SMOOTH_1 : Z := 71.
Definition DRV2605L_EFFECT_TRANSITION_RAMP_UP_LONG_SMOOTH_1 : Z := 83.
Definition DRV2605L_EFFECT_TRANSITION_RAMP_UP_SHORT_SMOOTH_1 : Z := 87.

(** Maximum haptic data size. *)
Definition HAPTIC_MAX_DATA_SIZE : Z := 32.

(** BLE data protocol definitions. *)
Definition HAPTIC_CMD_PLAY_EFFECT : Z := 0x01.
Definition HAPTIC_CMD_PLAY_SEQUENCE : Z := 0x02.
Definition HAPTIC_CMD_PLAY_PATTERN : Z := 0x03.
Definition HAPTIC_CMD_STOP : Z := 0x04.

Inductive haptic_pattern_type_t : Set :=
| HAPTIC_PATTERN_SINGLE_EFFECT
| HAPTIC_PATTERN_SEQUENCE
| HAPTIC_PATTERN_CUSTOM
| HAPTIC_PATTERN_STOP.

(** [struct haptic_data_t]. [data] holds the bytes stored by [memcpy];
    the rest of the 32-byte array is whatever [k_malloc] returned and is
    not represented. *)
Record haptic_data_t : Set := {
  type : haptic_pattern_type_t;
  data : list Z;
  len : Z
}.

(** Values of [haptic_predefined_pattern_t], in declaration order. *)
Definition HAPTIC_PATTERN_NOTIFICATION : Z := 0.
Definition HAPTIC_PATTERN_ALERT : Z := 1.
Definition HAPTIC_PATTERN_SUCCESS : Z := 2.
Definition HAPTIC_PATTERN_ERROR : Z := 3.
Definition HAPTIC_PATTERN_BUTTON_PRESS : Z := 4.
Definition HAPTIC_PATTERN_LONG_PRESS : Z := 5.
Definition HAPTIC_PATTERN_DOUBLE_TAP : Z := 6.
Definition HAPTIC_PATTERN_HEARTBEAT : Z := 7.
Definition HAPTIC_PATTERN_RAMP_UP : Z := 8.
Definition HAPTIC_PATTERN_RAMP_DOWN : Z := 9.
Definition HAPTIC_PATTERN_PULSE : Z := 10.
Definition HAPTIC_PATTERN_BUZZ : Z := 11.

(** Predefined pattern definitions (effect sequences). *)
Definition pattern_notification : list Z :=
  [DRV2605L_EFFECT_SHARP_CLICK_100].
Definition pattern_alert : list Z :=
  [DRV2605L_EFFECT_STRONG_BUZZ_100; DRV2605L_EFFECT_STRONG_BUZZ_100].
Definition pattern_success : list Z :=
  [DRV2605L_EFFECT_TRANSITION_RAMP_UP_SHORT_SMOOTH_1;
   DRV2605L_EFFECT_STRONG_CLICK_100].
Definition pattern_error : list Z :=
  [DRV2605L_EFFECT_STRONG_CLICK_100; DRV2605L_EFFECT_STRONG_CLICK_100;
   DRV2605L_EFFECT_STRONG_CLICK_100].
Definition pattern_button_press : list Z :=
  [DRV2605L_EFFECT_SHARP_CLICK_60].
Definition pattern_long_press : list Z :=
  [DRV2605L_EFFECT_SOFT_BUMP_100; DRV2605L_EFFECT_STRONG_CLICK_100].
Definition pattern_double_tap : list Z :=
  [DRV2605L_EFFECT_DOUBLE_CLICK_100].
Definition pattern_heartbeat : list Z :=
  [DRV2605L_EFFECT_SOFT_BUMP_100; DRV2605L_EFFECT_SOFT_BUMP_60].
Definition pattern_ramp_up : list Z :=
  [DRV2605L_EFFECT_TRANSITION_RAMP_UP_LONG_SMOOTH_1].
Definition pattern_ramp_down : list Z :=
  [DRV2605L_EFFECT_TRANSITION_RAMP_DOWN_LONG_SMOOTH_1].
Definition pattern_pulse : list Z :=
  [DRV2605L_EFFECT_PULSING_STRONG_1].
Definition pattern_buzz : list Z :=
  [DRV2605L_EFFECT_STRONG_BUZZ_100].

(** Pattern lookup table. *)
Record pattern_def : Set := {
  effects : list Z;
  count : Z
}.

Definition ARRAY_SIZE {A : Type} (a : list A) : Z := Z.of_nat (length a).

Definition mk_pattern (e : list Z) : pattern_def :=
  {| effects := e; count := ARRAY_SIZE e |}.

(** The designated initialisers [[HAPTIC_PATTERN_x] = ...] place each
    entry at the index of its enumerator. *)
Definition predefined_patterns : list pattern_def :=
  [ mk_pattern pattern_notification;   (* [HAPTIC_PATTERN_NOTIFICATION] *)
    mk_pattern pattern_alert;          (* [HAPTIC_PATTERN_ALERT] *)
    mk_pattern pattern_success;        (* [HAPTIC_PATTERN_SUCCESS] *)
    mk_pattern pattern_error;          (* [HAPTIC_PATTERN_ERROR] *)
    mk_pattern pattern_button_press;   (* [HAPTIC_PATTERN_BUTTON_PRESS] *)
    mk_pattern pattern_long_press;     (* [HAPTIC_PATTERN_LONG_PRESS] *)
    mk_pattern pattern_double_tap;     (* [HAPTIC_PATTERN_DOUBLE_TAP] *)
    mk_pattern pattern_heartbeat;      (* [HAPTIC_PATTERN_HEARTBEAT] *)
    mk_pattern pattern_ramp_up;        (* [HAPTIC_PATTERN_RAMP_UP] *)
    mk_pattern pattern_ramp_down;      (* [HAPTIC_PATTERN_RAMP_DOWN] *)
    mk_pattern pattern_pulse;          (* [HAPTIC_PATTERN_PULSE] *)
    mk_pattern pattern_buzz ].         (* [HAPTIC_PATTERN_BUZZ] *)

(** The service state: the FIFO [fifo_haptic_data] (head first) and the
    kernel heap, abstracted to the number of [struct haptic_data_t] blocks
    [k_malloc] can still hand out. *)
Record svc_state : Set := {
  fifo_haptic_data : list haptic_data_t;
  heap_free : nat
}.

(** [k_malloc(sizeof(struct haptic_data_t))]: [false] stands for NULL. *)
Definition k_malloc (s : svc_state) : bool * svc_state :=
  match heap_free s with
  | O => (false, s)
  | S n => (true, {| fifo_haptic_data := fifo_haptic_data s;
                     heap_free := n |})
  end.

Definition k_fifo_put (item : haptic_data_t) (s : svc_state) : svc_state :=
  {| fifo_haptic_data := fifo_haptic_data s ++ [item];
     heap_free := heap_free s |}.

(** [k_fifo_get(&fifo, K_FOREVER)] when an item is present; on an empty
    FIFO the caller stays blocked ([None]). *)
Definition k_fifo_get (s : svc_state) : option (haptic_data_t * svc_state) :=
  match fifo_haptic_data s with
  | [] => None
  | item :: rest =>
      Some (item, {| fifo_haptic_data := rest; heap_free := heap_free s |})
  end.

Definition k_free (s : svc_state) : svc_state :=
  {| fifo_haptic_data := fifo_haptic_data s;
     heap_free := S (heap_free s) |}.

(** Queue haptic data for processing. *)
Definition queue_haptic_data (type : haptic_pattern_type_t)
    (data : option (list Z)) (len : Z) (s : svc_state) : Z * svc_state :=
  if len >? HAPTIC_MAX_DATA_SIZE then (- EINVAL, s) else
  let (haptic_data, s) := k_malloc s in
  if negb haptic_data then (- ENOMEM, s) else
  let copied :=
    match data with
    | Some src => if len >? 0 then firstn (Z.to_nat len) src else []
    | None => []
    end in
  (0, k_fifo_put {| type := type; data := copied; len := len |} s).

(** Queue a single haptic effect for playback. *)
Definition haptic_play_effect (effect : Z) (s : svc_state) : Z * svc_state :=
  if effect_out_of_range effect then (- EINVAL, s) else
  queue_haptic_data HAPTIC_PATTERN_SINGLE_EFFECT (Some [effect]) 1 s.

(** Queue a predefined haptic pattern for playback. *)
Definition haptic_play_pattern (pattern : Z) (s : svc_state)
  : Z * svc_state :=
  if pattern >=? ARRAY_SIZE predefined_patterns then (- EINVAL, s) else
  let pat := nth (Z.to_nat pattern) predefined_patterns (mk_pattern []) in
  queue_haptic_data HAPTIC_PATTERN_SEQUENCE (Some (effects pat)) (count pat) s.

(** The validation loop of [haptic_play_sequence]: [true] when some
    [effects[i]], [i] in [[i, i + n)], is rejected. *)
Fixpoint sequence_has_invalid (effects : list Z) (n : nat) (i : Z) : bool :=
  match n with
  | O => false
  | S n' =>
      if effect_out_of_range (idx effects i) then true
      else sequence_has_invalid effects n' (i + 1)
  end.

(** Queue a custom haptic sequence for playback. *)
Definition haptic_play_sequence (effects : option (list Z)) (count : Z)
    (s : svc_state) : Z * svc_state :=
  match effects with
  | None => (- EINVAL, s)
  | Some effects =>
      if count =? 0 then (- EINVAL, s) else
      let count := if count >? HAPTIC_MAX_DATA_SIZE
                   then HAPTIC_MAX_DATA_SIZE else count in
      (* Validate effect numbers *)
      if sequence_has_invalid effects (Z.to_nat count) 0
      then (- EINVAL, s) else
      queue_haptic_data HAPTIC_PATTERN_SEQUENCE (Some effects) count s
  end.

(** Stop current haptic playback. *)
Definition haptic_stop (s : svc_state) : Z * svc_state :=
  queue_haptic_data HAPTIC_PATTERN_STOP None 0 s.

(** Process BLE data and convert to haptic pattern. [&data[2]] is the
    array without its first two bytes. *)
Definition haptic_process_ble_data (data : option (list Z)) (len : Z)
    (s : svc_state) : Z * svc_state :=
  match data with
  | None => (- EINVAL, s)
  | Some data =>
      if len <? 1 then (- EINVAL, s) else
      let cmd := idx data 0 in
      if cmd =? HAPTIC_CMD_PLAY_EFFECT then
        if len <? 2 then (- EINVAL, s) else
        haptic_play_effect (idx data 1) s
      else if cmd =? HAPTIC_CMD_PLAY_SEQUENCE then
        if len <? 2 then (- EINVAL, s) else
        let count := idx data 1 in
        if len <? 2 + count then (- EINVAL, s) else
        haptic_play_sequence (Some (skipn 2 data)) count s
      else if cmd =? HAPTIC_CMD_PLAY_PATTERN then
        if len <? 2 then (- EINVAL, s) else
        haptic_play_pattern (idx data 1) s
      else if cmd =? HAPTIC_CMD_STOP then
        haptic_stop s
      else (- ENOTSUP, s)
  end.

(** Get haptic data from FIFO queue. *)
Definition haptic_get_queued_data (s : svc_state)
  : option (haptic_data_t * svc_state) :=
  k_fifo_get s.

(** *** The initialization handshake with the haptic thread *)

(** [k_sem_give] on a semaphore of the given limit, as its count. *)
Definition k_sem_give (limit count : nat) : nat :=
  if (count <? limit)%nat then S count else count.

(** [k_sem_take(&sem, K_FOREVER)]: [None] while the count is 0, the caller
    staying blocked. *)
Definition k_sem_take (count : nat) : option nat :=
  match count with
  | O => None
  | S n => Some n
  end.

(** The haptic subsystem as [haptic_service_init] sees it: the driver, the
    service state and the count of [haptic_init_ok], declared with
    [K_SEM_DEFINE(haptic_init_ok, 0, 1)]. *)
Record haptic_sys : Set := {
  driver : Drv2605l.drv_state;
  service : svc_state;
  haptic_init_ok : nat
}.

Definition HAPTIC_INIT_OK_LIMIT : nat := 1.

(** Initialize haptic service. *)
Definition haptic_service_init (env : Drv2605l.i2c_env) (s : haptic_sys)
  : Z * haptic_sys :=
  (* Initialize DRV2605L driver with ERM motor type *)
  let (ret, d) :=
    Drv2605l.drv2605l_init env Drv2605l.DRV2605L_MOTOR_ERM (driver s) in
  if ret <? 0 then
    (ret, {| driver := d;
             service := service s;
             haptic_init_ok := haptic_init_ok s |})
  else
    (* Signal initialization complete *)
    (0, {| driver := d;
           service := service s;
           haptic_init_ok :=
             k_sem_give HAPTIC_INIT_OK_LIMIT (haptic_init_ok s) |}).

(** Wait for haptic service initialization to complete: [None] while the
    caller is blocked. *)
Definition haptic_wait_init (s : haptic_sys) : option haptic_sys :=
  match k_sem_take (haptic_init_ok s) with
  | None => None
  | Some n => Some {| driver := driver s;
                      service := service s;
                      haptic_init_ok := n |}
  end.

(** Signal that haptic service initialization is complete. *)
Definition haptic_signal_init_complete (s : haptic_sys) : haptic_sys :=
  {| driver := driver s;
     service := service s;
     haptic_init_ok := k_sem_give HAPTIC_INIT_OK_LIMIT (haptic_init_ok s) |}.

End Haptic.

(** ** The BLE receive callback, [main.c] *)

Module Main.

(** What the callback acts on: the haptic service, and the calls made to
    [uart_transmit], each recorded as the bytes [data[0 .. len-1]] it was
    given. *)
Record app_state : Set := {
  haptic : Haptic.svc_state;
  uart_transmit_calls : list (list Z)
}.

Section OnBleDataReceived.

(** [sizeof(tx->data)] for a [struct uart_data_t], a build option. *)
Variable CONFIG_BT_NUS_UART_BUFFER_SIZE : Z.

(** Whether the [k_malloc] of the n-th pass of the forwarding loop
    succeeds. The heap is shared with [uart_transmit] and the UART
    callbacks, which allocate and free blocks of their own between two
    passes, so the outcome is left to the environment. *)
Variable tx_alloc : nat -> bool.

(** [for (uint16_t pos = ...; pos != len;) { ... }] of
    [on_ble_data_received], entered at position [pos] on pass [n], with
    at most [fuel] passes to run: [None] when they do not suffice. *)
Fixpoint forward_to_uart (fuel : nat) (data : list Z) (len pos : Z)
    (n : nat) (calls : list (list Z)) : option (list (list Z)) :=
  if pos =? len then Some calls else
  match fuel with
  | O => None
  | S fuel' =>
      if negb (tx_alloc n) then Some calls else
      (* Keep the last byte of TX buffer for potential LF char. *)
      let tx_data_size := CONFIG_BT_NUS_UART_BUFFER_SIZE - 1 in
      let tx_len := if len - pos >? tx_data_size
                    then tx_data_size else len - pos in
      let tx_data := firstn (Z.to_nat tx_len) (skipn (Z.to_nat pos) data) in
      let pos := pos + tx_len in
      (* Append the LF character when the CR character triggered
         transmission from the peer. *)
      let tx := if (pos =? len) && (idx data (len - 1) =? 13)
                then (tx_data ++ [10], tx_len + 1)
                else (tx_data, tx_len) in
      forward_to_uart fuel' data len pos (S n)
        (calls ++ [firstn (Z.to_nat (snd tx)) (fst tx)])
  end.

(** BLE data received callback. *)
Definition on_ble_data_received (fuel : nat) (data : list Z) (len : Z)
    (s : app_state) : option app_state :=
  if len =? 0 then Some s else
  (* Check if this is a haptic command (0x01-0x04) *)
  if (idx data 0 >=? 0x01) && (idx data 0 <=? 0x04) then
    let (err, h) := Haptic.haptic_process_ble_data (Some data) len (haptic s) in
    Some {| haptic := h; uart_transmit_calls := uart_transmit_calls s |}
  else
    (* Otherwise, forward to UART *)
    match forward_to_uart fuel data len 0 0 (uart_transmit_calls s) with
    | None => None
    | Some calls => Some {| haptic := haptic s; uart_transmit_calls := calls |}
    end.

End OnBleDataReceived.

End Main.

(** ** Vocabulary of the statements *)

Import Drv2605l.

(** An effect number the hardware library knows. *)
Definition effect_in_range (e : Z) : Prop := 1 <= e <= 123.

Definition is_uint8 (x : Z) : Prop := 0 <= x < 256.

(** What a transaction asked of the device, without its outcome. *)
Inductive bus_op : Set :=
| OpWrite (reg value : Z)
| OpRead (reg : Z).

Definition op_of (e : bus_event) : bus_op :=
  match e with
  | BusWrite reg value _ => OpWrite reg value
  | BusRead reg _ _ => OpRead reg
  end.

Definition wr (w : Z * Z) : bus_op := OpWrite (fst w) (snd w).

(** The state after the transactions [evs] were added to the trace. *)
Definition extend_log (evs : list bus_event) (s : drv_state) : drv_state :=
  {| initialized := initialized s;
     motor_type := motor_type s;
     bus_log := bus_log s ++ evs |}.

Definition prefix_of {A : Type} (l full : list A) : Prop :=
  exists rest, full = l ++ rest.

(** A bus on which no transaction fails. *)
Definition bus_never_fails (env : i2c_env) : Prop :=
  forall n, 0 <= fst (i2c_reply env n).

(** The call returned [ret] because the last transaction it attempted,
    a register write, failed with that code. *)
Definition bus_fault (env : i2c_env) (s : drv_state) (evs : list bus_event)
    (ret : Z) : Prop :=
  ret < 0 /\
  exists pre reg value,
    evs = pre ++ [BusWrite reg value ret] /\
    ret = fst (i2c_reply env (length (bus_log s) + length pre)).

(** The values [effects[i]], ..., [effects[i + n - 1]] as the loops read
    them. *)
Fixpoint reads (effects : list Z) (n : nat) (i : Z) : list Z :=
  match n with
  | O => []
  | S n' => idx effects i :: reads effects n' (i + 1)
  end.

(** The longest prefix of accepted effect numbers. *)
Fixpoint take_valid (l : list Z) : list Z :=
  match l with
  | [] => []
  | e :: t => if effect_out_of_range e then [] else e :: take_valid t
  end.

Definition all_valid (l : list Z) : bool :=
  forallb (fun e => negb (effect_out_of_range e)) l.

(** Register/value pairs putting [l] into the waveform slots from slot
    [i + 1] on. *)
Fixpoint slot_writes (i : Z) (l : list Z) : list (Z * Z) :=
  match l with
  | [] => []
  | e :: t => (DRV2605L_REG_WAVESEQ1 + i, e) :: slot_writes (i + 1) t
  end.

(** Register writes issued one after the other, each checked. *)
Fixpoint write_regs (env : i2c_env) (ws : list (Z * Z)) : body unit :=
  match ws with
  | [] => pure tt
  | w :: t =>
      bind (check (drv2605l_write_reg env (fst w) (snd w)))
           (fun _ => write_regs env t)
  end.

(** The number of effects [drv2605l_play_sequence] programs. *)
Definition programmed_count (count : Z) : Z :=
  Z.min count DRV2605L_MAX_WAVEFORM_SEQ.

(** The writes of a complete [drv2605l_play_sequence]: the slots, the
    terminator if a slot remains, the trigger. *)
Definition sequence_writes (l : list Z) : list (Z * Z) :=
  slot_writes 0 l
  ++ (if Z.of_nat (length l) <? DRV2605L_MAX_WAVEFORM_SEQ
      then [(DRV2605L_REG_WAVESEQ1 + Z.of_nat (length l), 0)] else [])
  ++ [(DRV2605L_REG_GO, 1)].

(** [ws] written in order, then [return final]. *)
Definition run_writes (env : i2c_env) (ws : list (Z * Z)) (final : Z)
  : drv_state -> Z * drv_state :=
  cfun (bind (write_regs env ws) (fun _ => Return final)).

(** The register writes of [drv2605l_init] after the status probe. *)
Definition init_writes (type : drv2605l_motor_type_t) : list (Z * Z) :=
  [ (DRV2605L_REG_MODE, DRV2605L_MODE_INTTRIG);
    (DRV2605L_REG_LIBRARY,
     if motor_eqb type DRV2605L_MOTOR_LRA
     then DRV2605L_LIB_LRA else DRV2605L_LIB_ERM);
    (DRV2605L_REG_FEEDBACK,
     if motor_eqb type DRV2605L_MOTOR_LRA then 0x80 else 0x00) ]
  ++ (if motor_eqb type DRV2605L_MOTOR_ERM
      then [ (DRV2605L_REG_RATEDV, 0x90); (DRV2605L_REG_CLAMPV, 0xFF) ]
      else [])
  ++ [ (DRV2605L_REG_CONTROL1, 0x93);
       (DRV2605L_REG_CONTROL2, 0xF5);
       (DRV2605L_REG_CONTROL3, 0xA0) ].

(** The driver as the service leaves it at boot, before [drv2605l_init]. *)
Definition drv_boot : drv_state :=
  {| initialized := false;
     motor_type := DRV2605L_MOTOR_ERM;
     bus_log := [] |}.

(** A device that acknowledges everything and reads back 0. *)
Definition env_quiet : i2c_env :=
  {| bus_ready := true; i2c_reply := fun _ => (0, 0) |}.

(** The driver after a successful [drv2605l_init] for the ERM motor, as
    [haptic_service_init] requests it. *)
Definition drv_ready : drv_state :=
  snd (drv2605l_init env_quiet DRV2605L_MOTOR_ERM drv_boot).

(** An LRA device on a fault-free bus, initialized and then calibrated
    right after boot: transactions 0..6 are those of [drv2605l_init],
    7 and 8 the mode and GO writes of [drv2605l_auto_calibrate], and the
    k-th poll of the GO register is transaction [8 + k]. The GO bit reads
    set on the polls before the [k]-th and clear from the [k]-th on. *)
Definition env_calibration_done_at (k : nat) : i2c_env :=
  {| bus_ready := true;
     i2c_reply := fun n =>
       if (n <? 9)%nat then (0, 0)
       else if (n <? 8 + k)%nat then (0, 1)
       else (0, 0) |}.

(** The n-th transaction, taken as a read, returns a byte with bit 0
    set. *)
Definition go_bit_set (env : i2c_env) (n : nat) : Prop :=
  Z.land (snd (i2c_reply env n)) 0x01 <> 0.

Definition is_go_read (e : bus_event) : bool :=
  match e with
  | BusRead reg _ _ => reg =? DRV2605L_REG_GO
  | BusWrite _ _ _ => false
  end.

(** The call either succeeded or returned the code of a failed bus write:
    it did not stop on one of the driver's own checks. *)
Definition driver_accepts (env : i2c_env) (d : drv_state)
    (res : Z * drv_state) : Prop :=
  exists evs,
    snd res = extend_log evs d /\
    (fst res = 0 \/ bus_fault env d evs (fst res)).

Import Haptic.

(** The service state once [item] was allocated and put on the FIFO. *)
Definition enqueued (item : haptic_data_t) (s : svc_state) : svc_state :=
  {| fifo_haptic_data := fifo_haptic_data s ++ [item];
     heap_free := pred (heap_free s) |}.

(** The service at boot: empty FIFO, [n] free blocks on the heap. *)
Definition svc_idle (n : nat) : svc_state :=
  {| fifo_haptic_data := []; heap_free := n |}.

(** The effect sequence of [predefined_patterns[p]]. *)
Definition pattern_effects (p : Z) : list Z :=
  effects (nth (Z.to_nat p) predefined_patterns (mk_pattern [])).

(** A well-formed queued request: the payload fits the 32-byte array and
    has the recorded length; the payload of a single-effect request is one
    accepted effect, that of a sequence request is a non-empty list of
    accepted effects. *)
Definition request_ok (r : haptic_data_t) : Prop :=
  0 <= len r <= HAPTIC_MAX_DATA_SIZE /\
  Z.of_nat (length (data r)) = len r /\
  match type r with
  | HAPTIC_PATTERN_SINGLE_EFFECT =>
      len r = 1 /\ Forall effect_in_range (data r)
  | HAPTIC_PATTERN_SEQUENCE =>
      1 <= len r /\ Forall effect_in_range (data r)
  | HAPTIC_PATTERN_CUSTOM | HAPTIC_PATTERN_STOP => True
  end.

(** [request_ok] as a test. *)
Definition request_okb (r : haptic_data_t) : bool :=
  (0 <=? len r) && (len r <=? HAPTIC_MAX_DATA_SIZE) &&
  (Z.of_nat (length (data r)) =? len r) &&
  match type r with
  | HAPTIC_PATTERN_SINGLE_EFFECT => (len r =? 1) && all_valid (data r)
  | HAPTIC_PATTERN_SEQUENCE => (1 <=? len r) && all_valid (data r)
  | HAPTIC_PATTERN_CUSTOM | HAPTIC_PATTERN_STOP => true
  end.

(** The states of the service: from boot, any succession of calls to the
    public entry points and of requests taken off the FIFO and freed by the
    haptic thread. The arguments are those a C caller can pass: a count is
    a [uint8_t], a buffer is made of bytes, and an array holds at least
    the number of elements announced with it. *)
Inductive svc_reachable : svc_state -> Prop :=
| reach_boot (n : nat) :
    svc_reachable (svc_idle n)
| reach_play_effect (s : svc_state) (effect : Z) :
    svc_reachable s ->
    svc_reachable (snd (haptic_play_effect effect s))
| reach_play_pattern (s : svc_state) (pattern : Z) :
    svc_reachable s ->
    svc_reachable (snd (haptic_play_pattern pattern s))
| reach_play_sequence (s : svc_state) (effects : option (list Z))
    (count : Z) :
    svc_reachable s ->
    is_uint8 count ->
    match effects with
    | Some es => count <= Z.of_nat (length es)
    | None => True
    end ->
    svc_reachable (snd (haptic_play_sequence effects count s))
| reach_stop (s : svc_state) :
    svc_reachable s ->
    svc_reachable (snd (haptic_stop s))
| reach_process_ble_data (s : svc_state) (data : list Z) (len : Z) :
    svc_reachable s ->
    Forall is_uint8 data ->
    0 <= len <= Z.of_nat (length data) ->
    svc_reachable (snd (haptic_process_ble_data (Some data) len s))
| reach_dequeue (s s' : svc_state) (item : haptic_data_t) :
    svc_reachable s ->
    haptic_get_queued_data s = Some (item, s') ->
    svc_reachable (k_free s').



(** A write to one of the waveform-sequence slots or to the GO
    register. *)
Definition playback_op (o : bus_op) : Prop :=
  match o with
  | OpWrite reg _ => DRV2605L_REG_WAVESEQ1 <= reg <= DRV2605L_REG_GO
  | OpRead _ => False
  end.


(** A bus whose device is not ready. *)
Definition env_not_ready : i2c_env :=
  {| bus_ready := false; i2c_reply := fun _ => (0, 0) |}.



Definition drv_ready_lra : drv_state :=
  {| initialized := true; motor_type := DRV2605L_MOTOR_LRA; bus_log := [] |}.

(** The outcome of a service call is all or nothing: either it returns 0,
    having taken one block off the heap and put one request at the tail of
    the FIFO, or it returns an error and leaves the service state as it
    was. [-ENOMEM] is returned only with an exhausted heap. *)
Definition all_or_nothing (s : svc_state) (res : Z * svc_state) : Prop :=
  (fst res = 0 /\
   heap_free s <> 0%nat /\
   exists r, snd res = enqueued r s) \/
  (snd res = s /\
   (fst res = - EINVAL \/
    fst res = - ENOTSUP \/
    (fst res = - ENOMEM /\ heap_free s = 0%nat))).

(** The blocks of the heap the service accounts for: those still free and
    those held by queued requests. *)
Definition blocks (s : svc_state) : nat :=
  (heap_free s + length (fifo_haptic_data s))%nat.

(** The haptic subsystem at boot: driver not initialized, empty FIFO,
    [haptic_init_ok] at its initial count 0. *)
Definition sys_boot (n : nat) : haptic_sys :=
  {| driver := drv_boot; service := svc_idle n; haptic_init_ok := 0 |}.

(** A device whose GO bit never clears. *)
Definition env_go_stuck : i2c_env :=
  {| bus_ready := true; i2c_reply := fun _ => (0, 1) |}.

(** The application with an idle haptic service and nothing sent to the
    UART yet. *)
Definition app_idle : Main.app_state :=
  {| Main.haptic := svc_idle 4; Main.uart_transmit_calls := [] |}.

(** Proof step: split a membership [H] in a list built with [::] and [++]
    into its cases. *)
Ltac in_cases H :=
  repeat match type of H with
         | In _ (_ ++ _) => apply in_app_or in H; destruct H as [H|H]
         | In _ (_ :: _) => destruct H as [H|H]
         | In _ [] => destruct H
         end.

(** Proof step: on a fault-free bus ([Hbus : bus_never_fails env]) the
    return code tested next is not negative. *)
Ltac bus_ok Hbus :=
  match goal with
  | |- context [if ?r <? 0 then _ else _] =>
      replace (r <? 0) with false by (symmetry; apply Z.ltb_ge, Hbus)
  end.

(** ** Basic facts about function bodies *)

Section BodyFacts.

Variable env : i2c_env.

Lemma extend_log_nil (s : drv_state) : extend_log [] s = s.
Proof.
  destruct s as [ini mt lg]; unfold extend_log; simpl.
  now rewrite app_nil_r.
Qed.

Lemma extend_log_app (a b : list bus_event) (s : drv_state) :
  extend_log b (extend_log a s) = extend_log (a ++ b) s.
Proof.
  unfold extend_log; simpl. now rewrite app_assoc.
Qed.

Lemma check_write_reg (reg value : Z) (s : drv_state) :
  check (drv2605l_write_reg env reg value) s =
  let r := fst (i2c_reply env (length (bus_log s))) in
  (if r <? 0 then inl r else inr tt, extend_log [BusWrite reg value r] s).
Proof.
  unfold check, drv2605l_write_reg, cfun, bind, call, i2c_write_dt,
    Return, pure, log_event, extend_log.
  cbv zeta.
  destruct (fst (i2c_reply env (length (bus_log s))) <? 0) eqn:E.
  - now rewrite E.
  - reflexivity.
Qed.

End BodyFacts.

(** ** The driver loop as a list of register writes *)

Section DriverFacts.

Variable env : i2c_env.

Lemma effect_out_of_range_false (e : Z) :
  effect_out_of_range e = false <-> effect_in_range e.
Proof.
  unfold effect_out_of_range, effect_in_range.
  rewrite orb_false_iff, Z.ltb_ge, Z.gtb_ltb, Z.ltb_ge. lia.
Qed.

Lemma effect_out_of_range_true (e : Z) :
  effect_out_of_range e = true <-> ~ effect_in_range e.
Proof.
  rewrite <- effect_out_of_range_false.
  destruct (effect_out_of_range e); intuition congruence.
Qed.

Lemma all_valid_Forall (l : list Z) :
  all_valid l = true <-> Forall effect_in_range l.
Proof.
  unfold all_valid. rewrite forallb_forall, Forall_forall.
  split; intros H e He; specialize (H e He).
  - apply effect_out_of_range_false. now destruct (effect_out_of_range e).
  - apply effect_out_of_range_false in H. now rewrite H.
Qed.

Lemma take_valid_all (l : list Z) : all_valid l = true -> take_valid l = l.
Proof.
  induction l as [|e t IH]; simpl; [reflexivity|].
  destruct (effect_out_of_range e); simpl; [discriminate|].
  intros H. now rewrite IH.
Qed.

Lemma take_valid_Forall (l : list Z) : Forall effect_in_range (take_valid l).
Proof.
  induction l as [|e t IH]; simpl; [constructor|].
  destruct (effect_out_of_range e) eqn:E; constructor; [|exact IH].
  now apply effect_out_of_range_false.
Qed.

Lemma take_valid_prefix (l : list Z) : prefix_of (take_valid l) l.
Proof.
  induction l as [|e t [rest IH]]; simpl.
  - now exists [].
  - destruct (effect_out_of_range e).
    + now exists (e :: t).
    + exists rest. simpl. now rewrite <- IH.
Qed.

Lemma reads_length (es : list Z) (n : nat) (i : Z) :
  length (reads es n i) = n.
Proof.
  revert i; induction n as [|n IH]; intros i; simpl; [reflexivity|].
  now rewrite IH.
Qed.

Lemma reads_firstn (n : nat) :
  forall (es : list Z) (i : nat),
    (i + n <= length es)%nat ->
    reads es n (Z.of_nat i) = firstn n (skipn i es).
Proof.
  induction n as [|n IH]; intros es i H; simpl; [reflexivity|].
  replace (Z.of_nat i + 1) with (Z.of_nat (S i)) by lia.
  rewrite IH by lia.
  unfold idx. rewrite Nat2Z.id.
  assert (Hs : skipn i es = nth i es 0 :: skipn (S i) es).
  { clear IH. revert es H. induction i as [|i IHi]; intros [|a es] H;
      simpl in *; try lia; [reflexivity|].
    apply IHi. lia. }
  now rewrite Hs.
Qed.

Lemma write_regs_app (a b : list (Z * Z)) (s : drv_state) :
  write_regs env (a ++ b) s =
  bind (write_regs env a) (fun _ => write_regs env b) s.
Proof.
  revert s; induction a as [|w a IH]; intros s; simpl; [reflexivity|].
  unfold bind.
  destruct (check (drv2605l_write_reg env (fst w) (snd w)) s) as [[r|u] s1];
    [reflexivity|].
  rewrite IH. reflexivity.
Qed.

(** Writes issued through [write_regs] reach the bus in order; the run
    stops at the first failure and reports its code. *)
Lemma write_regs_spec (ws : list (Z * Z)) :
  forall s : drv_state,
    exists evs,
      snd (write_regs env ws s) = extend_log evs s /\
      match fst (write_regs env ws s) with
      | inr _ => map op_of evs = map wr ws
      | inl r => bus_fault env s evs r /\ prefix_of (map op_of evs) (map wr ws)
      end.
Proof.
  induction ws as [|w ws IH]; intros s.
  - exists []. simpl. now rewrite extend_log_nil.
  - simpl. unfold bind. rewrite check_write_reg. cbv zeta.
    set (r := fst (i2c_reply env (length (bus_log s)))).
    destruct (r <? 0) eqn:E.
    + exists [BusWrite (fst w) (snd w) r]. simpl. split; [reflexivity|].
      split.
      * split; [now apply Z.ltb_lt|].
        exists [], (fst w), (snd w). simpl. split; [reflexivity|].
        now rewrite Nat.add_0_r.
      * now exists (map wr ws).
    + destruct (IH (extend_log [BusWrite (fst w) (snd w) r] s))
        as [evs [Hs Hf]].
      exists (BusWrite (fst w) (snd w) r :: evs).
      rewrite Hs, extend_log_app. split; [reflexivity|].
      destruct (fst (write_regs env ws _)) as [r'|u].
      * destruct Hf as [[Hlt [pre [reg [v [He Hr]]]]] [rest Hp]]. split.
        -- split; [exact Hlt|].
           exists (BusWrite (fst w) (snd w) r :: pre), reg, v.
           split; [now rewrite He|].
           rewrite Hr. simpl. rewrite length_app. simpl.
           f_equal. f_equal. lia.
        -- exists rest. simpl. now rewrite Hp.
      * simpl. now rewrite Hf.
Qed.

Lemma write_regs_ok (Hbus : bus_never_fails env) (ws : list (Z * Z)) :
  forall s : drv_state,
    exists evs,
      write_regs env ws s = (inr tt, extend_log evs s) /\
      map op_of evs = map wr ws.
Proof.
  induction ws as [|w ws IH]; intros s.
  - exists []. simpl. now rewrite extend_log_nil.
  - simpl. unfold bind. rewrite check_write_reg. cbv zeta.
    set (r := fst (i2c_reply env (length (bus_log s)))).
    assert (E : (r <? 0) = false) by (apply Z.ltb_ge, Hbus).
    rewrite E.
    destruct (IH (extend_log [BusWrite (fst w) (snd w) r] s))
      as [evs [Hs Hf]].
    exists (BusWrite (fst w) (snd w) r :: evs).
    rewrite Hs, extend_log_app. split; [reflexivity|].
    simpl. now rewrite Hf.
Qed.

(** The programming loop writes the accepted prefix of what it reads and
    returns [-EINVAL] at the first rejected effect. *)
Lemma program_waveform_sequence_eq (es : list Z) (n : nat) :
  forall (i : Z) (s : drv_state),
    0 <= i -> i + Z.of_nat n <= 252 ->
    program_waveform_sequence env es n i s =
    bind (write_regs env (slot_writes i (take_valid (reads es n i))))
         (fun _ => if all_valid (reads es n i)
                   then pure tt else Return (- EINVAL)) s.
Proof.
  induction n as [|n IH]; intros i s Hi Hn; [reflexivity|].
  cbn [program_waveform_sequence reads take_valid all_valid forallb].
  destruct (effect_out_of_range (idx es i)) eqn:E; [reflexivity|].
  cbn [slot_writes write_regs negb andb fst snd].
  assert (Hu : uint8 (DRV2605L_REG_WAVESEQ1 + i) = DRV2605L_REG_WAVESEQ1 + i).
  { unfold uint8, DRV2605L_REG_WAVESEQ1. apply Z.mod_small. lia. }
  rewrite Hu. unfold bind.
  destruct (check _ s) as [[r|u] s1]; [reflexivity|].
  rewrite IH by lia. reflexivity.
Qed.

Lemma programmed_count_eq (count : Z) :
  (if count >? DRV2605L_MAX_WAVEFORM_SEQ
   then DRV2605L_MAX_WAVEFORM_SEQ else count) = programmed_count count.
Proof.
  unfold programmed_count. rewrite Z.gtb_ltb.
  destruct (Z.ltb_spec DRV2605L_MAX_WAVEFORM_SEQ count); lia.
Qed.

(** On an initialized driver [drv2605l_play_sequence] comes down to a run
    of register writes: the whole sequence, terminator and trigger when
    every programmed effect is accepted, the accepted prefix followed by
    [-EINVAL] otherwise. *)
Lemma drv2605l_play_sequence_eq (es : list Z) (count : Z) (s : drv_state) :
  initialized s = true ->
  1 <= count <= 255 ->
  drv2605l_play_sequence env (Some es) count s =
  let l := reads es (Z.to_nat (programmed_count count)) 0 in
  if all_valid l then run_writes env (sequence_writes l) 0 s
  else run_writes env (slot_writes 0 (take_valid l)) (- EINVAL) s.
Proof.
  intros Hini Hc.
  unfold drv2605l_play_sequence, run_writes, cfun.
  unfold bind at 1. unfold call, get_initialized. rewrite Hini.
  cbn [negb].
  replace (count =? 0) with false by (symmetry; apply Z.eqb_neq; lia).
  rewrite programmed_count_eq.
  assert (Hp : 1 <= programmed_count count <= 8).
  { unfold programmed_count, DRV2605L_MAX_WAVEFORM_SEQ. lia. }
  set (c := programmed_count count) in *.
  cbv zeta. set (l := reads es (Z.to_nat c) 0).
  assert (Hl : Z.of_nat (length l) = c).
  { unfold l. rewrite reads_length. lia. }
  unfold bind at 1.
  rewrite program_waveform_sequence_eq by lia. fold l.
  destruct (all_valid l) eqn:Hv.
  - rewrite (take_valid_all l Hv). unfold sequence_writes.
    rewrite Hl.
    assert (Hu : uint8 (DRV2605L_REG_WAVESEQ1 + c)
                 = DRV2605L_REG_WAVESEQ1 + c).
    { unfold uint8, DRV2605L_REG_WAVESEQ1. apply Z.mod_small. lia. }
    rewrite Hu. unfold bind. rewrite write_regs_app. unfold bind.
    destruct (write_regs env (slot_writes 0 l) s) as [[r|u] s1];
      [reflexivity|].
    unfold pure at 1.
    destruct (c <? DRV2605L_MAX_WAVEFORM_SEQ);
      cbn [write_regs fst snd app]; unfold bind, pure.
    + destruct (check _ s1) as [[r1|u1] s2]; [reflexivity|].
      destruct (check _ s2) as [[r2|u2] s3]; reflexivity.
    + destruct (check _ s1) as [[r2|u2] s3]; reflexivity.
  - unfold bind.
    destruct (write_regs env (slot_writes 0 (take_valid l)) s)
      as [[r|u] s1]; reflexivity.
Qed.

(** What a run of writes leaves on the bus, whatever the bus does. *)
Lemma run_writes_spec (ws : list (Z * Z)) (final : Z) (s : drv_state) :
  exists evs,
    snd (run_writes env ws final s) = extend_log evs s /\
    prefix_of (map op_of evs) (map wr ws) /\
    ((fst (run_writes env ws final s) = final /\
      map op_of evs = map wr ws) \/
     bus_fault env s evs (fst (run_writes env ws final s))).
Proof.
  unfold run_writes, cfun, bind.
  destruct (write_regs_spec ws s) as [evs [Hs Hf]].
  exists evs.
  destruct (write_regs env ws s) as [[r|u] s1]; simpl in *.
  - destruct Hf as [Hb Hp]. auto.
  - unfold Return. simpl. split; [exact Hs|]. split.
    + exists []. now rewrite app_nil_r.
    + now left.
Qed.

Lemma run_writes_ok (Hbus : bus_never_fails env) (ws : list (Z * Z))
    (final : Z) (s : drv_state) :
  exists evs,
    run_writes env ws final s = (final, extend_log evs s) /\
    map op_of evs = map wr ws.
Proof.
  unfold run_writes, cfun, bind.
  destruct (write_regs_ok Hbus ws s) as [evs [Hs Hf]].
  exists evs. rewrite Hs. now split.
Qed.

End DriverFacts.

(** ** Properties of the driver *)

Section DriverProperties.

Variable env : i2c_env.

Lemma slot_writes_In (l : list Z) :
  forall (i : Z) (w : Z * Z),
    In w (slot_writes i l) ->
    DRV2605L_REG_WAVESEQ1 + i <= fst w
      < DRV2605L_REG_WAVESEQ1 + i + Z.of_nat (length l)
    /\ In (snd w) l.
Proof.
  induction l as [|e t IH]; intros i w H; simpl in H; [contradiction|].
  destruct H as [H|H].
  - subst w. simpl. split; [lia|now left].
  - apply IH in H. simpl length. split; [lia|now right].
Qed.

Lemma prefix_of_In {A : Type} (l full : list A) (x : A) :
  prefix_of l full -> In x l -> In x full.
Proof.
  intros [rest ->] H. apply in_or_app. now left.
Qed.

Lemma take_valid_length (l : list Z) :
  (length (take_valid l) <= length l)%nat.
Proof.
  destruct (take_valid_prefix l) as [rest H].
  rewrite H at 2. rewrite length_app. lia.
Qed.

Lemma reads_from_start (es : list Z) (n : nat) :
  (n <= length es)%nat -> reads es n 0 = firstn n es.
Proof.
  intros H. change 0 with (Z.of_nat 0).
  now rewrite reads_firstn by lia.
Qed.

Lemma write_event_op (evs : list bus_event) (reg value ret : Z) :
  In (BusWrite reg value ret) evs -> In (OpWrite reg value) (map op_of evs).
Proof.
  intros H. change (OpWrite reg value) with (op_of (BusWrite reg value ret)).
  now apply in_map.
Qed.

Lemma wr_In (ws : list (Z * Z)) (reg value : Z) :
  In (OpWrite reg value) (map wr ws) -> In (reg, value) ws.
Proof.
  rewrite in_map_iff. intros [[r v] [H Hin]].
  unfold wr in H. simpl in H. now inversion H; subst.
Qed.

Lemma bus_fault_never (Hbus : bus_never_fails env) (s : drv_state)
    (evs : list bus_event) (ret : Z) :
  ~ bus_fault env s evs ret.
Proof.
  intros [Hlt [pre [reg [v [_ Hr]]]]].
  specialize (Hbus (length (bus_log s) + length pre)%nat). lia.
Qed.

(** C4: before a successful [drv2605l_init] ([initialized] still false),
    [drv2605l_play_effect], [drv2605l_play_sequence], [drv2605l_stop],
    [drv2605l_standby], [drv2605l_wakeup] and [drv2605l_auto_calibrate]
    all return [-ENODEV] and leave the state, bus trace included,
    untouched: no register is written or read. *)
Theorem C4_uninitialized_driver_rejects (s : drv_state) :
  initialized s = false ->
  (forall effect, drv2605l_play_effect env effect s = (- ENODEV, s)) /\
  (forall effects count,
      drv2605l_play_sequence env effects count s = (- ENODEV, s)) /\
  drv2605l_stop env s = (- ENODEV, s) /\
  drv2605l_standby env s = (- ENODEV, s) /\
  drv2605l_wakeup env s = (- ENODEV, s) /\
  drv2605l_auto_calibrate env s = (- ENODEV, s).
Proof.
  intros H.
  unfold drv2605l_play_effect, drv2605l_play_sequence, drv2605l_stop,
    drv2605l_standby, drv2605l_wakeup, drv2605l_auto_calibrate.
  unfold cfun, bind, call, get_initialized. rewrite H.
  repeat split; reflexivity.
Qed.

(** [drv2605l_init] is the readiness test, the status probe, then a run
    of register writes that depends on the motor type. *)
Lemma drv2605l_init_eq (type : drv2605l_motor_type_t) (s : drv_state) :
  drv2605l_init env type s =
  if negb (bus_ready env) then (- ENODEV, s) else
  let s0 := snd (set_motor_type type s) in
  let rs := i2c_reply env (length (bus_log s)) in
  let s1 := log_event (BusRead DRV2605L_REG_STATUS (fst rs) (snd rs)) s0 in
  if fst rs <? 0 then (fst rs, s1) else
  match write_regs env (init_writes type) s1 with
  | (inl r, s2) => (r, s2)
  | (inr _, s2) => (0, snd (set_initialized true s2))
  end.
Proof.
  unfold drv2605l_init, cfun.
  destruct (bus_ready env); cbn [negb]; [|reflexivity].
  unfold bind at 1. unfold call at 1, set_motor_type. cbn [snd].
  unfold bind at 1. unfold call at 1, drv2605l_read_reg, i2c_write_read_dt.
  cbn [bus_log]. cbv zeta.
  destruct (i2c_reply env (length (bus_log s))) as [ret value].
  cbn [fst snd].
  destruct (ret <? 0) eqn:E; cbn [fst snd]; rewrite ?E; [reflexivity|].
  change (0 <? 0) with false. cbv iota.
  destruct type; cbn [motor_eqb init_writes app write_regs fst snd];
    unfold bind, pure; cbv beta iota;
    repeat (destruct (check _ _) as [[?|?] ?]; try reflexivity).
Qed.

(** C5 (as amended): [drv2605l_init] for the LRA motor never writes the
    rated-voltage or the overdrive-clamp register, whatever the bus does;
    when it succeeds, its transactions are, in order, the status probe,
    the mode register, the library selection (LRA library), the
    feedback control (0x80) and then the three control registers
    CONTROL1 = 0x93, CONTROL2 = 0xF5, CONTROL3 = 0xA0, which are written
    for either motor type. *)
Theorem C5_init_lra_register_writes (s : drv_state) :
  let res := drv2605l_init env DRV2605L_MOTOR_LRA s in
  exists evs,
    bus_log (snd res) = bus_log s ++ evs /\
    (forall value ret,
        ~ In (BusWrite DRV2605L_REG_RATEDV value ret) evs /\
        ~ In (BusWrite DRV2605L_REG_CLAMPV value ret) evs) /\
    (fst res = 0 ->
     map op_of evs =
       [ OpRead DRV2605L_REG_STATUS;
         OpWrite DRV2605L_REG_MODE DRV2605L_MODE_INTTRIG;
         OpWrite DRV2605L_REG_LIBRARY DRV2605L_LIB_LRA;
         OpWrite DRV2605L_REG_FEEDBACK 0x80;
         OpWrite DRV2605L_REG_CONTROL1 0x93;
         OpWrite DRV2605L_REG_CONTROL2 0xF5;
         OpWrite DRV2605L_REG_CONTROL3 0xA0 ] /\
     initialized (snd res) = true /\
     motor_type (snd res) = DRV2605L_MOTOR_LRA).
Proof.
  cbv zeta. rewrite drv2605l_init_eq.
  destruct (bus_ready env); cbn [negb].
  - cbv zeta.
    set (rs := i2c_reply env (length (bus_log s))).
    set (s1 := log_event _ _).
    destruct (fst rs <? 0) eqn:E.
    + exists [BusRead DRV2605L_REG_STATUS (fst rs) (snd rs)].
      split; [reflexivity|]. split.
      * intros v r. split; intros [H|[]]; discriminate.
      * cbn [fst]. apply Z.ltb_lt in E. lia.
    + destruct (write_regs_spec env (init_writes DRV2605L_MOTOR_LRA) s1)
        as [evs [Hs Hf]].
      assert (Hno : forall reg v r,
                 prefix_of (map op_of evs)
                           (map wr (init_writes DRV2605L_MOTOR_LRA)) ->
                 reg = DRV2605L_REG_RATEDV \/ reg = DRV2605L_REG_CLAMPV ->
                 ~ In (BusWrite reg v r)
                      (BusRead DRV2605L_REG_STATUS (fst rs) (snd rs) :: evs)).
      { intros reg v r Hp Hreg [H|H]; [destruct Hreg; discriminate|].
        apply write_event_op in H.
        apply (prefix_of_In _ _ _ Hp), wr_In in H.
        cbv in H.
        destruct Hreg; subst reg;
          repeat (destruct H as [H|H]; try discriminate); exact H. }
      exists (BusRead DRV2605L_REG_STATUS (fst rs) (snd rs) :: evs).
      destruct (write_regs env (init_writes DRV2605L_MOTOR_LRA) s1)
        as [[r|u] s2]; cbn [fst snd] in *; subst s2.
      * destruct Hf as [[Hlt _] Hp].
        split; [cbn; now rewrite <- app_assoc|]. split.
        -- intros v r'. split; apply Hno; auto.
        -- lia.
      * assert (Hp : prefix_of (map op_of evs)
                       (map wr (init_writes DRV2605L_MOTOR_LRA))).
        { exists []. now rewrite app_nil_r. }
        split; [cbn; now rewrite <- app_assoc|]. split.
        -- intros v r'. split; apply Hno; auto.
        -- intros _. cbn [map op_of]. rewrite Hf. repeat split.
  - exists []. split; [now rewrite app_nil_r|]. split.
    + intros v r. split; intros [].
    + cbn [fst]. unfold ENODEV. lia.
Qed.

(** Outcome of [drv2605l_play_sequence] on an initialized driver, for an
    array that holds the [count] effects announced. *)
Lemma drv2605l_play_sequence_spec (es : list Z) (count : Z) (s : drv_state) :
  initialized s = true ->
  1 <= count <= 255 ->
  count <= Z.of_nat (length es) ->
  let l := firstn (Z.to_nat (programmed_count count)) es in
  let res := drv2605l_play_sequence env (Some es) count s in
  let ws := if all_valid l then sequence_writes l
            else slot_writes 0 (take_valid l) in
  let final := if all_valid l then 0 else - EINVAL in
  exists evs,
    snd res = extend_log evs s /\
    prefix_of (map op_of evs) (map wr ws) /\
    ((fst res = final /\ map op_of evs = map wr ws) \/
     bus_fault env s evs (fst res)).
Proof.
  intros Hini Hc Hlen. cbv zeta.
  rewrite drv2605l_play_sequence_eq by assumption. cbv zeta.
  rewrite reads_from_start
    by (unfold programmed_count, DRV2605L_MAX_WAVEFORM_SEQ; lia).
  destruct (all_valid _); apply run_writes_spec.
Qed.

Lemma firstn_programmed_length (es : list Z) (count : Z) :
  1 <= count ->
  count <= Z.of_nat (length es) ->
  Z.of_nat (length (firstn (Z.to_nat (programmed_count count)) es))
  = programmed_count count.
Proof.
  intros H1 H2. rewrite length_firstn.
  unfold programmed_count, DRV2605L_MAX_WAVEFORM_SEQ. lia.
Qed.

(** C2 (as amended): on an initialized driver, when one of the effects
    [drv2605l_play_sequence] programs (the first [min count 8]) is outside
    [1, 123], the call returns an error and never writes the GO register;
    the registers it writes are the waveform slots of the accepted effects
    that precede the first rejected one, in order, since each effect is
    checked just before its slot is written. On a bus without failures
    the error is [-EINVAL] and exactly those slots are written. *)
Theorem C2_invalid_effect_aborts_sequence
    (es : list Z) (count : Z) (s : drv_state) :
  initialized s = true ->
  1 <= count <= 255 ->
  count <= Z.of_nat (length es) ->
  let l := firstn (Z.to_nat (programmed_count count)) es in
  ~ Forall effect_in_range l ->
  let res := drv2605l_play_sequence env (Some es) count s in
  exists evs,
    snd res = extend_log evs s /\
    fst res < 0 /\
    (forall value ret, ~ In (BusWrite DRV2605L_REG_GO value ret) evs) /\
    prefix_of (map op_of evs) (map wr (slot_writes 0 (take_valid l))) /\
    (bus_never_fails env ->
     fst res = - EINVAL /\
     map op_of evs = map wr (slot_writes 0 (take_valid l))).
Proof.
  intros Hini Hc Hlen l Hbad res.
  destruct (drv2605l_play_sequence_spec es count s Hini Hc Hlen)
    as [evs [Hs [Hp Hr]]].
  fold l in Hp, Hr. fold res in Hs, Hr.
  assert (Hv : all_valid l = false).
  { destruct (all_valid l) eqn:E; [|reflexivity].
    apply all_valid_Forall in E. contradiction. }
  rewrite Hv in Hp, Hr.
  exists evs. split; [exact Hs|]. split; [|split; [|split]].
  - destruct Hr as [[Hf _]|[Hlt _]]; [rewrite Hf; unfold EINVAL|]; lia.
  - intros v r H.
    apply write_event_op in H.
    apply (prefix_of_In _ _ _ Hp), wr_In, slot_writes_In in H.
    destruct H as [H _]. cbn [fst] in H.
    pose proof (take_valid_length l) as Ht.
    pose proof (firstn_programmed_length es count (proj1 Hc) Hlen) as Hn.
    fold l in Hn.
    unfold programmed_count, DRV2605L_MAX_WAVEFORM_SEQ in Hn.
    unfold DRV2605L_REG_GO, DRV2605L_REG_WAVESEQ1 in H. lia.
  - exact Hp.
  - intros Hbus. destruct Hr as [Hok|Hf]; [exact Hok|].
    now apply bus_fault_never in Hf.
Qed.

(** C3: on an initialized driver, a sequence of more than 8 accepted
    effects has exactly its first 8 written to the waveform slots 1..8,
    followed by the GO trigger and nothing else: the 9th and later effects
    reach no register and no terminator is written. For any [count], a
    register receives the value 0 (the terminator) only when fewer than 8
    slots are used. On a failing bus the writes are a prefix of these. *)
Theorem C3_long_sequence_truncated
    (es : list Z) (count : Z) (s : drv_state) :
  initialized s = true ->
  1 <= count <= 255 ->
  count <= Z.of_nat (length es) ->
  let res := drv2605l_play_sequence env (Some es) count s in
  let full := slot_writes 0 (firstn 8 es) ++ [(DRV2605L_REG_GO, 1)] in
  exists evs,
    snd res = extend_log evs s /\
    (forall reg ret, In (BusWrite reg 0 ret) evs -> count < 8) /\
    (8 < count ->
     Forall effect_in_range (firstn 8 es) ->
     prefix_of (map op_of evs) (map wr full) /\
     (bus_never_fails env ->
      fst res = 0 /\ map op_of evs = map wr full)).
Proof.
  intros Hini Hc Hlen res full.
  destruct (drv2605l_play_sequence_spec es count s Hini Hc Hlen)
    as [evs [Hs [Hp Hr]]].
  fold res in Hs, Hr.
  pose proof (firstn_programmed_length es count (proj1 Hc) Hlen) as Hn.
  set (l := firstn (Z.to_nat (programmed_count count)) es) in *.
  exists evs. split; [exact Hs|]. split.
  - intros reg ret H.
    apply write_event_op in H.
    apply (prefix_of_In _ _ _ Hp), wr_In in H.
    destruct (all_valid l) eqn:Hv.
    + unfold sequence_writes in H.
      apply in_app_or in H. destruct H as [H|H].
      * apply slot_writes_In in H. destruct H as [_ H]. cbn [snd] in H.
        apply all_valid_Forall in Hv.
        rewrite Forall_forall in Hv. apply Hv in H.
        unfold effect_in_range in H. lia.
      * apply in_app_or in H. destruct H as [H|[H|[]]]; [|discriminate].
        rewrite Hn in H.
        destruct (Z.ltb_spec (programmed_count count)
                             DRV2605L_MAX_WAVEFORM_SEQ) as [Hlt|Hge];
          [|destruct H].
        unfold programmed_count, DRV2605L_MAX_WAVEFORM_SEQ in Hlt. lia.
    + apply slot_writes_In in H. destruct H as [_ H]. cbn [snd] in H.
      pose proof (take_valid_Forall l) as Hf.
      rewrite Forall_forall in Hf. apply Hf in H.
      unfold effect_in_range in H. lia.
  - intros Hgt Hall.
    assert (Hpc : programmed_count count = 8).
    { unfold programmed_count, DRV2605L_MAX_WAVEFORM_SEQ. lia. }
    assert (El : l = firstn 8 es) by (unfold l; now rewrite Hpc).
    rewrite <- El in Hall. apply all_valid_Forall in Hall.
    rewrite Hall in Hp, Hr.
    assert (Ew : sequence_writes l = full).
    { unfold sequence_writes, full. rewrite Hn, Hpc, <- El. reflexivity. }
    rewrite Ew in Hp, Hr. split; [exact Hp|].
    intros Hbus. destruct Hr as [Hok|Hf]; [exact Hok|].
    now apply bus_fault_never in Hf.
Qed.

Lemma drv2605l_play_effect_eq (effect : Z) (s : drv_state) :
  initialized s = true ->
  effect_in_range effect ->
  drv2605l_play_effect env effect s =
  run_writes env [ (DRV2605L_REG_WAVESEQ1, effect);
                   (DRV2605L_REG_WAVESEQ2, 0);
                   (DRV2605L_REG_GO, 1) ] 0 s.
Proof.
  intros Hini He. apply effect_out_of_range_false in He.
  unfold drv2605l_play_effect, run_writes, cfun.
  unfold bind at 1. unfold call, get_initialized. rewrite Hini, He.
  cbn [negb write_regs fst snd]. unfold bind, pure.
  repeat (destruct (check _ _) as [[?|?] ?]; try reflexivity).
Qed.

(** An accepted effect passes [drv2605l_play_effect]. *)
Lemma driver_accepts_play_effect (effect : Z) (s : drv_state) :
  initialized s = true ->
  effect_in_range effect ->
  driver_accepts env s (drv2605l_play_effect env effect s).
Proof.
  intros Hini He. rewrite drv2605l_play_effect_eq by assumption.
  destruct (run_writes_spec env
              [ (DRV2605L_REG_WAVESEQ1, effect);
                (DRV2605L_REG_WAVESEQ2, 0);
                (DRV2605L_REG_GO, 1) ] 0 s) as [evs [Hs [_ Hr]]].
  exists evs. split; [exact Hs|].
  destruct Hr as [[Hok _]|Hf]; [now left|now right].
Qed.

(** A non-empty payload of accepted effects passes
    [drv2605l_play_sequence], whatever its length. *)
Lemma driver_accepts_play_sequence (es : list Z) (count : Z)
    (s : drv_state) :
  initialized s = true ->
  1 <= count <= 255 ->
  Z.of_nat (length es) = count ->
  Forall effect_in_range es ->
  driver_accepts env s (drv2605l_play_sequence env (Some es) count s).
Proof.
  intros Hini Hc Hlen Hall.
  assert (Hle : count <= Z.of_nat (length es)) by lia.
  destruct (drv2605l_play_sequence_spec es count s Hini Hc Hle)
    as [evs [Hs [_ Hr]]].
  assert (Hv : all_valid (firstn (Z.to_nat (programmed_count count)) es)
               = true).
  { apply all_valid_Forall. rewrite Forall_forall in *.
    intros e He. apply Hall.
    rewrite <- (firstn_skipn (Z.to_nat (programmed_count count)) es).
    apply in_or_app. now left. }
  rewrite Hv in Hr.
  exists evs. split; [exact Hs|].
  destruct Hr as [[Hok _]|Hf]; [now left|now right].
Qed.

(** *** Initialization and calibration *)

(** [drv2605l_init] sets [initialized] exactly when it returns 0. *)
Lemma drv2605l_init_initialized (type : drv2605l_motor_type_t)
    (s : drv_state) :
  initialized (snd (drv2605l_init env type s)) =
  if fst (drv2605l_init env type s) =? 0 then true else initialized s.
Proof.
  rewrite drv2605l_init_eq.
  destruct (bus_ready env); cbn [negb]; [|reflexivity].
  cbv zeta. destruct (Z.ltb_spec (fst (i2c_reply env (length (bus_log s)))) 0)
    as [Hlt|Hge].
  - cbn [fst snd].
    replace (fst (i2c_reply env (length (bus_log s))) =? 0) with false
      by (symmetry; apply Z.eqb_neq; lia).
    reflexivity.
  - set (s1 := log_event _ _).
    destruct (write_regs_spec env (init_writes type) s1) as [evs [Hs Hf]].
    destruct (write_regs env (init_writes type) s1) as [[r|u] s2];
      cbn [fst snd] in *; [|reflexivity].
    destruct Hf as [[Hlt _] _].
    replace (r =? 0) with false by (symmetry; apply Z.eqb_neq; lia).
    now subst s2.
Qed.

(** On a bus without failures the polling loop of
    [drv2605l_auto_calibrate] always falls through, and it leaves
    [timeout <= 0] exactly when the GO bit read set on each of the first
    [timeout - 1] polls: a clear bit on the last poll is not told apart
    from expiry. *)
Lemma wait_calibration_spec (Hbus : bus_never_fails env) (n : nat) :
  forall s : drv_state,
    exists t evs,
      wait_calibration env n s = (inr t, extend_log evs s) /\
      (t <= 0 <->
       forall k, (S k < n)%nat -> go_bit_set env (length (bus_log s) + k)).
Proof.
  induction n as [|n IH]; intros s.
  - exists (-1), []. rewrite extend_log_nil.
    split; [reflexivity|]. split; intros; lia.
  - cbn [wait_calibration].
    unfold bind at 1. unfold call at 1, drv2605l_read_reg, i2c_write_read_dt.
    pose proof (Hbus (length (bus_log s))) as Hret.
    unfold go_bit_set.
    destruct (i2c_reply env (length (bus_log s))) as [ret v] eqn:E.
    cbn [fst snd] in *.
    replace (ret <? 0) with false by (symmetry; apply Z.ltb_ge; lia).
    cbn [fst snd]. change (0 <? 0) with false. cbv iota.
    destruct (Z.eqb_spec (Z.land v 1) 0) as [Hclear|Hset].
    + exists (Z.of_nat n), [BusRead DRV2605L_REG_GO ret v].
      split; [reflexivity|]. split.
      * intros Ht k Hk. lia.
      * intros H. destruct n as [|n]; [lia|].
        exfalso. assert (Hk : (1 < S (S n))%nat) by lia.
        specialize (H 0%nat Hk). rewrite Nat.add_0_r, E in H.
        cbn [snd] in H. contradiction.
    + destruct (IH (log_event (BusRead DRV2605L_REG_GO ret v) s))
        as [t [evs [Hw Hiff]]].
      exists t, (BusRead DRV2605L_REG_GO ret v :: evs).
      change (log_event (BusRead DRV2605L_REG_GO ret v) s)
        with (extend_log [BusRead DRV2605L_REG_GO ret v] s) in *.
      rewrite Hw. split; [now rewrite extend_log_app|].
      rewrite Hiff. unfold go_bit_set. cbn [extend_log bus_log].
      rewrite length_app. cbn [length]. split; intros H k Hk.
      * destruct k as [|k].
        -- rewrite Nat.add_0_r, E. exact Hset.
        -- replace (length (bus_log s) + S k)%nat
             with (length (bus_log s) + 1 + k)%nat by lia.
           apply H. lia.
      * replace (length (bus_log s) + 1 + k)%nat
          with (length (bus_log s) + S k)%nat by lia.
        apply H. lia.
Qed.

(** On a bus without failures, [drv2605l_auto_calibrate] on an initialized
    LRA driver returns [-ETIMEDOUT] exactly when the GO bit reads set on
    each of the first 99 polls, whatever the 100th poll reads. The two
    writes that start the calibration precede the polls on the bus. *)
Lemma drv2605l_auto_calibrate_timeout_iff (Hbus : bus_never_fails env)
    (s : drv_state) :
  initialized s = true ->
  motor_type s = DRV2605L_MOTOR_LRA ->
  fst (drv2605l_auto_calibrate env s) = - ETIMEDOUT <->
  forall k, (k < 99)%nat -> go_bit_set env (length (bus_log s) + 2 + k).
Proof.
  intros Hini Hlra. unfold drv2605l_auto_calibrate, cfun. cbv zeta.
  unfold bind at 1. unfold call at 1, get_initialized. rewrite Hini.
  cbn [negb]. unfold bind at 1. unfold call at 1, get_motor_type.
  rewrite Hlra. cbn [motor_eqb negb].
  unfold bind at 1. rewrite check_write_reg. cbv zeta. bus_ok Hbus.
  set (s1 := extend_log _ s).
  unfold bind at 1. rewrite check_write_reg. cbv zeta. bus_ok Hbus.
  set (s2 := extend_log _ s1).
  assert (Hl2 : length (bus_log s2) = (length (bus_log s) + 2)%nat).
  { unfold s2, s1. cbn [extend_log bus_log]. rewrite !length_app.
    cbn [length]. lia. }
  destruct (wait_calibration_spec Hbus 100 s2) as [t [evs [Hw Hiff]]].
  unfold bind at 1. rewrite Hw. rewrite Hl2 in Hiff.
  assert (Hiff' : t <= 0 <->
            forall k, (k < 99)%nat ->
                      go_bit_set env (length (bus_log s) + 2 + k)).
  { rewrite Hiff. split; intros H k Hk; apply H; lia. }
  rewrite <- Hiff'. clear Hiff Hiff' Hw.
  destruct (Z.leb_spec t 0) as [Hle|Hgt].
  - cbn [fst]. split; [intros _; exact Hle|reflexivity].
  - set (s3 := extend_log evs s2).
    unfold bind at 1. unfold call at 1, drv2605l_read_reg, i2c_write_read_dt.
    pose proof (Hbus (length (bus_log s3))) as Hret.
    destruct (i2c_reply env (length (bus_log s3))) as [ret v].
    cbn [fst snd] in *.
    replace (ret <? 0) with false by (symmetry; apply Z.ltb_ge; lia).
    cbn [fst snd]. change (0 <? 0) with false. cbv iota.
    destruct (Z.land v 8 =? 0); cbn [negb].
    + unfold bind at 1. rewrite check_write_reg. cbv zeta. bus_ok Hbus.
      unfold Return. cbn [fst]. unfold ETIMEDOUT. split; intros; lia.
    + unfold Return. cbn [fst]. unfold EIO, ETIMEDOUT. split; intros; lia.
Qed.

End DriverProperties.

(** ** The driver on concrete devices *)

Lemma C4_uninitialized_driver_rejects_witness :
  drv2605l_stop env_quiet drv_boot = (- ENODEV, drv_boot) /\
  drv2605l_auto_calibrate env_quiet drv_boot = (- ENODEV, drv_boot).
Proof.
  destruct (C4_uninitialized_driver_rejects env_quiet drv_boot eq_refl)
    as [_ [_ [Hstop [_ [_ Hcal]]]]].
  split; [exact Hstop|exact Hcal].
Defined.

(** C2 as stated fails: an invalid third effect is detected only after
    slots 1 and 2 were written; an invalid ninth effect is never looked
    at and the call succeeds. *)
Lemma C2_counterexample :
  (let res := drv2605l_play_sequence env_quiet (Some [1; 2; 0]) 3 drv_ready in
   ~ Forall effect_in_range [1; 2; 0] /\
   fst res = - EINVAL /\
   In (BusWrite DRV2605L_REG_WAVESEQ1 1 0) (bus_log (snd res)) /\
   In (BusWrite DRV2605L_REG_WAVESEQ2 2 0) (bus_log (snd res)) /\
   ~ In (BusWrite DRV2605L_REG_WAVESEQ1 1 0) (bus_log drv_ready)) /\
  (let res := drv2605l_play_sequence env_quiet
                (Some [1; 1; 1; 1; 1; 1; 1; 1; 0]) 9 drv_ready in
   ~ Forall effect_in_range [1; 1; 1; 1; 1; 1; 1; 1; 0] /\
   fst res = 0).
Proof.
  split; cbv zeta.
  - split; [intros H; apply all_valid_Forall in H; discriminate H|].
    split; [reflexivity|].
    vm_compute. intuition discriminate.
  - split; [intros H; apply all_valid_Forall in H; discriminate H|].
    reflexivity.
Qed.

Lemma C2_invalid_effect_aborts_sequence_witness :
  fst (drv2605l_play_sequence env_quiet (Some [1; 2; 0]) 3 drv_ready) < 0.
Proof.
  assert (Hc : 1 <= 3 <= 255) by lia.
  assert (Hlen : 3 <= Z.of_nat (length [1; 2; 0])) by (simpl; lia).
  assert (Hbad : ~ Forall effect_in_range
                   (firstn (Z.to_nat (programmed_count 3)) [1; 2; 0])).
  { intros H. apply all_valid_Forall in H. discriminate H. }
  destruct (C2_invalid_effect_aborts_sequence env_quiet [1; 2; 0] 3
              drv_ready eq_refl Hc Hlen Hbad) as [evs [_ [H _]]].
  exact H.
Defined.

Lemma C3_long_sequence_truncated_witness :
  exists evs,
    snd (drv2605l_play_sequence env_quiet
           (Some [1; 2; 3; 4; 5; 6; 7; 8; 9; 10]) 10 drv_ready)
    = extend_log evs drv_ready /\
    map op_of evs =
      [ OpWrite 4 1; OpWrite 5 2; OpWrite 6 3; OpWrite 7 4;
        OpWrite 8 5; OpWrite 9 6; OpWrite 10 7; OpWrite 11 8;
        OpWrite DRV2605L_REG_GO 1 ].
Proof.
  assert (Hc : 1 <= 10 <= 255) by lia.
  assert (Hlen : 10 <= Z.of_nat (length [1; 2; 3; 4; 5; 6; 7; 8; 9; 10]))
    by (simpl; lia).
  destruct (C3_long_sequence_truncated env_quiet
              [1; 2; 3; 4; 5; 6; 7; 8; 9; 10] 10 drv_ready eq_refl Hc Hlen)
    as [evs [Hs [_ H]]].
  exists evs. split; [exact Hs|].
  assert (Hgt : 8 < 10) by lia.
  assert (Hall : Forall effect_in_range
                   (firstn 8 [1; 2; 3; 4; 5; 6; 7; 8; 9; 10])).
  { apply all_valid_Forall. reflexivity. }
  assert (Hbus : bus_never_fails env_quiet) by (intros n; simpl; lia).
  destruct (H Hgt Hall) as [_ Hex].
  destruct (Hex Hbus) as [_ Hops]. exact Hops.
Defined.

(** C5 as stated fails: a successful LRA initialization writes the three
    control registers. *)
Lemma C5_counterexample :
  let res := drv2605l_init env_quiet DRV2605L_MOTOR_LRA drv_boot in
  fst res = 0 /\
  In (BusWrite DRV2605L_REG_CONTROL1 0x93 0) (bus_log (snd res)) /\
  In (BusWrite DRV2605L_REG_CONTROL2 0xF5 0) (bus_log (snd res)) /\
  In (BusWrite DRV2605L_REG_CONTROL3 0xA0 0) (bus_log (snd res)).
Proof.
  vm_compute. intuition discriminate.
Qed.

(** C6, the code at the failing input: the GO bit reads set on polls
    1..99 and clear on poll 100. The driver makes its 100 polls, the last
    one sees the bit clear, and [drv2605l_auto_calibrate] still returns
    [-ETIMEDOUT]: leaving the loop through [break] on the last iteration
    leaves [timeout] at 0, which the test [timeout <= 0] takes for
    expiry. *)
Theorem C6_autocal_timeout_despite_clear_on_last_poll :
  let env := env_calibration_done_at 100 in
  let s := snd (drv2605l_init env DRV2605L_MOTOR_LRA drv_boot) in
  let res := drv2605l_auto_calibrate env s in
  initialized s = true /\
  motor_type s = DRV2605L_MOTOR_LRA /\
  length (filter is_go_read (bus_log (snd res))) = 100%nat /\
  last (bus_log (snd res)) (BusRead 0 0 0) = BusRead DRV2605L_REG_GO 0 0 /\
  fst res = - ETIMEDOUT.
Proof.
  vm_compute. repeat split.
Qed.

(** One poll earlier the same call succeeds. *)
Lemma autocal_succeeds_when_clear_on_poll_99 :
  let env := env_calibration_done_at 99 in
  let s := snd (drv2605l_init env DRV2605L_MOTOR_LRA drv_boot) in
  let res := drv2605l_auto_calibrate env s in
  length (filter is_go_read (bus_log (snd res))) = 99%nat /\
  fst res = 0.
Proof.
  vm_compute. repeat split.
Qed.

(** ** Properties of the haptic service *)

Section ServiceProperties.

Lemma queue_haptic_data_eq (t : haptic_pattern_type_t)
    (d : option (list Z)) (l : Z) (s : svc_state) :
  queue_haptic_data t d l s =
  if l >? HAPTIC_MAX_DATA_SIZE then (- EINVAL, s) else
  match heap_free s with
  | O => (- ENOMEM, s)
  | S _ =>
      (0, enqueued
            {| type := t;
               data := match d with
                       | Some src =>
                           if l >? 0 then firstn (Z.to_nat l) src else []
                       | None => []
                       end;
               len := l |} s)
  end.
Proof.
  unfold queue_haptic_data, k_malloc, k_fifo_put, enqueued.
  destruct (l >? HAPTIC_MAX_DATA_SIZE); [reflexivity|].
  destruct s as [f [|n]]; reflexivity.
Qed.

Lemma sequence_has_invalid_eq (es : list Z) (n : nat) :
  forall i : Z,
    sequence_has_invalid es n i = negb (all_valid (reads es n i)).
Proof.
  induction n as [|n IH]; intros i; [reflexivity|].
  cbn [sequence_has_invalid reads all_valid forallb].
  destruct (effect_out_of_range (idx es i)); [reflexivity|].
  cbn [negb andb]. apply IH.
Qed.

(** [haptic_play_sequence] on an array that holds the [count] effects
    announced. *)
Lemma haptic_play_sequence_eq (es : list Z) (c : Z) (s : svc_state) :
  1 <= c ->
  c <= Z.of_nat (length es) ->
  heap_free s <> 0%nat ->
  let kept := firstn (Z.to_nat (Z.min c HAPTIC_MAX_DATA_SIZE)) es in
  haptic_play_sequence (Some es) c s =
  if all_valid kept
  then (0, enqueued {| type := HAPTIC_PATTERN_SEQUENCE;
                       data := kept;
                       len := Z.min c HAPTIC_MAX_DATA_SIZE |} s)
  else (- EINVAL, s).
Proof.
  intros H1 Hlen Hheap. cbv zeta. unfold haptic_play_sequence.
  replace (c =? 0) with false by (symmetry; apply Z.eqb_neq; lia).
  assert (Hm : (if c >? HAPTIC_MAX_DATA_SIZE
                then HAPTIC_MAX_DATA_SIZE else c)
               = Z.min c HAPTIC_MAX_DATA_SIZE).
  { rewrite Z.gtb_ltb.
    destruct (Z.ltb_spec HAPTIC_MAX_DATA_SIZE c); lia. }
  rewrite Hm.
  assert (Hb : 1 <= Z.min c HAPTIC_MAX_DATA_SIZE <= HAPTIC_MAX_DATA_SIZE).
  { unfold HAPTIC_MAX_DATA_SIZE. lia. }
  set (m := Z.min c HAPTIC_MAX_DATA_SIZE) in *.
  rewrite sequence_has_invalid_eq, reads_from_start by lia.
  destruct (all_valid (firstn (Z.to_nat m) es)); cbn [negb]; [|reflexivity].
  rewrite queue_haptic_data_eq.
  replace (m >? HAPTIC_MAX_DATA_SIZE) with false
    by (symmetry; rewrite Z.gtb_ltb; apply Z.ltb_ge; lia).
  replace (m >? 0) with true
    by (symmetry; rewrite Z.gtb_ltb; apply Z.ltb_lt; lia).
  destruct (heap_free s); [contradiction|reflexivity].
Qed.

(** C8: the two-byte buffer [0x01, e] is decoded to a single-effect
    request carrying exactly [e] when [e] is in [1, 123] (and a block can
    be allocated for it); when [e] is outside [1, 123] the call returns
    [-EINVAL] and the FIFO is left as it was. *)
Theorem C8_single_effect_command (e : Z) (s : svc_state) :
  let res := haptic_process_ble_data
               (Some [HAPTIC_CMD_PLAY_EFFECT; e]) 2 s in
  (effect_in_range e ->
   heap_free s <> 0%nat ->
   res = (0, enqueued {| type := HAPTIC_PATTERN_SINGLE_EFFECT;
                         data := [e];
                         len := 1 |} s)) /\
  (~ effect_in_range e -> res = (- EINVAL, s)).
Proof.
  cbv zeta. unfold haptic_process_ble_data.
  change (2 <? 1) with false. change (2 <? 2) with false.
  change (idx [HAPTIC_CMD_PLAY_EFFECT; e] 0) with HAPTIC_CMD_PLAY_EFFECT.
  change (idx [HAPTIC_CMD_PLAY_EFFECT; e] 1) with e.
  change (HAPTIC_CMD_PLAY_EFFECT =? HAPTIC_CMD_PLAY_EFFECT) with true.
  cbv iota. unfold haptic_play_effect. split.
  - intros Hin Hheap. apply effect_out_of_range_false in Hin. rewrite Hin.
    rewrite queue_haptic_data_eq.
    destruct (heap_free s); [contradiction|reflexivity].
  - intros Hout. apply effect_out_of_range_true in Hout. now rewrite Hout.
Qed.

(** C9: a buffer whose first byte is 0x04 is decoded to a stop request,
    whatever follows the first byte and however long the buffer is (a
    block being available for the request). *)
Theorem C9_stop_command (rest : list Z) (s : svc_state) :
  heap_free s <> 0%nat ->
  let buf := HAPTIC_CMD_STOP :: rest in
  haptic_process_ble_data (Some buf) (Z.of_nat (length buf)) s =
  (0, enqueued {| type := HAPTIC_PATTERN_STOP; data := []; len := 0 |} s).
Proof.
  intros Hheap buf. unfold haptic_process_ble_data.
  replace (Z.of_nat (length buf) <? 1) with false
    by (symmetry; apply Z.ltb_ge; simpl length; lia).
  change (idx buf 0) with HAPTIC_CMD_STOP.
  change (HAPTIC_CMD_STOP =? HAPTIC_CMD_PLAY_EFFECT) with false.
  change (HAPTIC_CMD_STOP =? HAPTIC_CMD_PLAY_SEQUENCE) with false.
  change (HAPTIC_CMD_STOP =? HAPTIC_CMD_PLAY_PATTERN) with false.
  change (HAPTIC_CMD_STOP =? HAPTIC_CMD_STOP) with true.
  cbv iota. unfold haptic_stop. rewrite queue_haptic_data_eq.
  change (0 >? HAPTIC_MAX_DATA_SIZE) with false. cbv iota.
  destruct (heap_free s); [contradiction|reflexivity].
Qed.

(** C7: the buffer [0x03, p] is decoded successfully exactly when [p] is
    in [0, 11]; the request queued is then the sequence
    [predefined_patterns[p]]; for other [p] the call returns [-EINVAL] and
    queues nothing. Entry 0 of the table is the single effect
    SHARP_CLICK_100, entry 3 is STRONG_CLICK_100 three times. *)
Theorem C7_pattern_command (p : Z) (s : svc_state) :
  is_uint8 p ->
  heap_free s <> 0%nat ->
  let res := haptic_process_ble_data
               (Some [HAPTIC_CMD_PLAY_PATTERN; p]) 2 s in
  (fst res = 0 <-> 0 <= p <= 11) /\
  (0 <= p <= 11 ->
   res = (0, enqueued {| type := HAPTIC_PATTERN_SEQUENCE;
                         data := pattern_effects p;
                         len := Z.of_nat (length (pattern_effects p)) |} s)) /\
  (11 < p -> res = (- EINVAL, s)) /\
  pattern_effects HAPTIC_PATTERN_NOTIFICATION
    = [DRV2605L_EFFECT_SHARP_CLICK_100] /\
  pattern_effects HAPTIC_PATTERN_ERROR
    = [DRV2605L_EFFECT_STRONG_CLICK_100; DRV2605L_EFFECT_STRONG_CLICK_100;
       DRV2605L_EFFECT_STRONG_CLICK_100].
Proof.
  intros Hp Hheap. cbv zeta. unfold haptic_process_ble_data.
  change (2 <? 1) with false. change (2 <? 2) with false.
  change (idx [HAPTIC_CMD_PLAY_PATTERN; p] 0) with HAPTIC_CMD_PLAY_PATTERN.
  change (idx [HAPTIC_CMD_PLAY_PATTERN; p] 1) with p.
  change (HAPTIC_CMD_PLAY_PATTERN =? HAPTIC_CMD_PLAY_EFFECT) with false.
  change (HAPTIC_CMD_PLAY_PATTERN =? HAPTIC_CMD_PLAY_SEQUENCE) with false.
  change (HAPTIC_CMD_PLAY_PATTERN =? HAPTIC_CMD_PLAY_PATTERN) with true.
  cbv iota. unfold haptic_play_pattern.
  change (ARRAY_SIZE predefined_patterns) with 12.
  rewrite Z.geb_leb.
  destruct (Z.leb_spec 12 p) as [Hge|Hlt].
  - cbn [fst]. unfold EINVAL.
    repeat split; try reflexivity; try lia.
  - assert (Hok :
      (0, enqueued {| type := HAPTIC_PATTERN_SEQUENCE;
                      data := pattern_effects p;
                      len := Z.of_nat (length (pattern_effects p)) |} s)
      = queue_haptic_data HAPTIC_PATTERN_SEQUENCE
          (Some (effects (nth (Z.to_nat p) predefined_patterns
                              (mk_pattern []))))
          (count (nth (Z.to_nat p) predefined_patterns (mk_pattern []))) s).
    { rewrite queue_haptic_data_eq. unfold pattern_effects.
      destruct (heap_free s); [contradiction|].
      assert (Hcases : p = 0 \/ p = 1 \/ p = 2 \/ p = 3 \/ p = 4 \/ p = 5 \/
                       p = 6 \/ p = 7 \/ p = 8 \/ p = 9 \/ p = 10 \/ p = 11)
        by (unfold is_uint8 in Hp; lia).
      repeat (destruct Hcases as [->|Hcases]; [reflexivity|]).
      subst p. reflexivity. }
    rewrite <- Hok. cbn [fst].
    repeat split; try reflexivity; try lia.
    unfold is_uint8 in Hp. lia.
Qed.

(** C1 (as amended): for a buffer that starts with 0x02 and a count byte
    [N], decoding succeeds exactly when [N >= 1], at least [N] bytes
    follow the count (more may follow and are ignored), and each of the
    first [min N 32] of them is in [1, 123]. The request queued is then
    the sequence of these first [min N 32] bytes, in order; otherwise the
    call returns [-EINVAL] and queues nothing. *)
Theorem C1_sequence_command (N : Z) (tail : list Z) (s : svc_state) :
  is_uint8 N ->
  heap_free s <> 0%nat ->
  let buf := HAPTIC_CMD_PLAY_SEQUENCE :: N :: tail in
  let res := haptic_process_ble_data (Some buf) (Z.of_nat (length buf)) s in
  let kept := firstn (Z.to_nat (Z.min N HAPTIC_MAX_DATA_SIZE)) tail in
  (fst res = 0 <->
   1 <= N /\ N <= Z.of_nat (length tail) /\ Forall effect_in_range kept) /\
  (fst res = 0 ->
   snd res = enqueued {| type := HAPTIC_PATTERN_SEQUENCE;
                         data := kept;
                         len := Z.min N HAPTIC_MAX_DATA_SIZE |} s) /\
  (fst res <> 0 -> res = (- EINVAL, s)).
Proof.
  intros HN Hheap buf res kept. unfold res, haptic_process_ble_data.
  assert (Hlen : Z.of_nat (length buf) = 2 + Z.of_nat (length tail)).
  { unfold buf. simpl length. lia. }
  rewrite Hlen.
  replace (2 + Z.of_nat (length tail) <? 1) with false
    by (symmetry; apply Z.ltb_ge; lia).
  replace (2 + Z.of_nat (length tail) <? 2) with false
    by (symmetry; apply Z.ltb_ge; lia).
  change (idx buf 0) with HAPTIC_CMD_PLAY_SEQUENCE.
  change (idx buf 1) with N.
  change (skipn 2 buf) with tail.
  change (HAPTIC_CMD_PLAY_SEQUENCE =? HAPTIC_CMD_PLAY_EFFECT) with false.
  change (HAPTIC_CMD_PLAY_SEQUENCE =? HAPTIC_CMD_PLAY_SEQUENCE) with true.
  cbv iota zeta.
  assert (HE : fst (- EINVAL, s) <> 0) by (cbn [fst]; unfold EINVAL; lia).
  destruct (Z.ltb_spec (2 + Z.of_nat (length tail)) (2 + N)) as [Hshort|Hfit].
  { split; [|split]; [split; [intros H; contradiction|lia]
                     |intros H; contradiction|reflexivity]. }
  destruct (Z.eq_dec N 0) as [->|Hnz].
  { change (haptic_play_sequence (Some tail) 0 s) with (- EINVAL, s).
    split; [|split]; [split; [intros H; contradiction|lia]
                     |intros H; contradiction|reflexivity]. }
  unfold is_uint8 in HN.
  rewrite haptic_play_sequence_eq by (assumption || lia). fold kept.
  destruct (all_valid kept) eqn:Hv.
  - apply all_valid_Forall in Hv. cbn [fst snd].
    split; [|split]; [split; [intros _; repeat split; (lia || assumption)
                             |reflexivity]
                     |reflexivity|intros H; contradiction].
  - split; [|split]; [split; [intros H; contradiction|]
                     |intros H; contradiction|reflexivity].
    intros [_ [_ H]]. apply all_valid_Forall in H. congruence.
Qed.

(** *** The FIFO invariant *)

Lemma queue_haptic_data_ok (t : haptic_pattern_type_t)
    (d : option (list Z)) (l : Z) (s : svc_state) :
  Forall request_ok (fifo_haptic_data s) ->
  request_ok {| type := t;
                data := match d with
                        | Some src =>
                            if l >? 0 then firstn (Z.to_nat l) src else []
                        | None => []
                        end;
                len := l |} ->
  Forall request_ok (fifo_haptic_data (snd (queue_haptic_data t d l s))).
Proof.
  intros Hs Hr. rewrite queue_haptic_data_eq.
  destruct (l >? HAPTIC_MAX_DATA_SIZE); [exact Hs|].
  destruct (heap_free s); [exact Hs|].
  cbn [snd enqueued fifo_haptic_data].
  apply Forall_app. split; [exact Hs|]. now constructor.
Qed.

Lemma idx_uint8 (l : list Z) (i : Z) : Forall is_uint8 l -> is_uint8 (idx l i).
Proof.
  intros H. unfold idx.
  destruct (nth_in_or_default (Z.to_nat i) l 0) as [Hin | Hdef].
  - rewrite Forall_forall in H. now apply H.
  - rewrite Hdef. unfold is_uint8. lia.
Qed.

(** Effects read past the end of the array are rejected, so a validated
    run of reads lies within the array. *)
Lemma all_valid_reads_within (es : list Z) (n : nat) :
  forall i : nat,
    all_valid (reads es n (Z.of_nat i)) = true ->
    (0 < n)%nat ->
    (i + n <= length es)%nat.
Proof.
  induction n as [|n IH]; intros i Hv Hn; [lia|].
  cbn [reads all_valid forallb] in Hv.
  apply andb_true_iff in Hv. destruct Hv as [Hhd Htl].
  assert (Hi : (i < length es)%nat).
  { destruct (Nat.lt_ge_cases i (length es)) as [Hlt|Hge]; [exact Hlt|].
    unfold idx in Hhd. rewrite Nat2Z.id in Hhd.
    rewrite nth_overflow in Hhd by exact Hge. discriminate Hhd. }
  destruct n as [|n]; [lia|].
  replace (Z.of_nat i + 1) with (Z.of_nat (S i)) in Htl by lia.
  apply IH in Htl; lia.
Qed.

Lemma request_okb_sound (r : haptic_data_t) :
  request_okb r = true -> request_ok r.
Proof.
  unfold request_okb, request_ok.
  rewrite !andb_true_iff, !Z.leb_le, Z.eqb_eq.
  intros [[[H0 H1] H2] H3]. repeat split; try assumption.
  destruct (type r); try exact I;
    rewrite andb_true_iff, all_valid_Forall in H3;
    [rewrite Z.eqb_eq in H3|rewrite Z.leb_le in H3]; exact H3.
Qed.

Lemma predefined_patterns_ok (n : nat) :
  let pat := nth n predefined_patterns (mk_pattern []) in
  (n < 12)%nat ->
  request_ok {| type := HAPTIC_PATTERN_SEQUENCE;
                data := if count pat >? 0
                        then firstn (Z.to_nat (count pat)) (effects pat)
                        else [];
                len := count pat |}.
Proof.
  cbv zeta. intros Hn.
  do 12 (destruct n as [|n]; [apply request_okb_sound; reflexivity|]).
  lia.
Qed.

Lemma haptic_play_effect_ok (effect : Z) (s : svc_state) :
  Forall request_ok (fifo_haptic_data s) ->
  Forall request_ok (fifo_haptic_data (snd (haptic_play_effect effect s))).
Proof.
  intros Hs. unfold haptic_play_effect.
  destruct (effect_out_of_range effect) eqn:E; [exact Hs|].
  apply queue_haptic_data_ok; [exact Hs|].
  apply request_okb_sound. unfold request_okb, all_valid.
  cbn [type data len]. change (1 >? 0) with true. cbv iota.
  change (firstn (Z.to_nat 1) [effect]) with [effect].
  cbn [forallb length]. now rewrite E.
Qed.

Lemma haptic_play_pattern_ok (pattern : Z) (s : svc_state) :
  Forall request_ok (fifo_haptic_data s) ->
  Forall request_ok (fifo_haptic_data (snd (haptic_play_pattern pattern s))).
Proof.
  intros Hs. unfold haptic_play_pattern.
  change (ARRAY_SIZE predefined_patterns) with 12.
  rewrite Z.geb_leb.
  destruct (Z.leb_spec 12 pattern) as [Hge|Hlt]; [exact Hs|].
  apply queue_haptic_data_ok; [exact Hs|].
  apply predefined_patterns_ok. lia.
Qed.

Lemma haptic_play_sequence_ok (es : option (list Z)) (c : Z)
    (s : svc_state) :
  is_uint8 c ->
  Forall request_ok (fifo_haptic_data s) ->
  Forall request_ok (fifo_haptic_data (snd (haptic_play_sequence es c s))).
Proof.
  intros Hc Hs. unfold haptic_play_sequence, is_uint8 in *.
  destruct es as [es|]; [|exact Hs].
  destruct (Z.eqb_spec c 0) as [->|Hnz]; [exact Hs|].
  set (m := if c >? HAPTIC_MAX_DATA_SIZE then HAPTIC_MAX_DATA_SIZE else c).
  assert (Hm : 1 <= m <= HAPTIC_MAX_DATA_SIZE).
  { unfold m, HAPTIC_MAX_DATA_SIZE. rewrite Z.gtb_ltb.
    destruct (Z.ltb_spec 32 c); lia. }
  rewrite sequence_has_invalid_eq.
  destruct (all_valid (reads es (Z.to_nat m) 0)) eqn:Hv; [|exact Hs].
  cbn [negb].
  assert (Hin : (Z.to_nat m <= length es)%nat).
  { apply (all_valid_reads_within es (Z.to_nat m) 0) in Hv; lia. }
  rewrite reads_from_start in Hv by exact Hin.
  apply queue_haptic_data_ok; [exact Hs|].
  replace (m >? 0) with true
    by (symmetry; rewrite Z.gtb_ltb; apply Z.ltb_lt; lia).
  unfold request_ok. cbn [type data len].
  rewrite length_firstn. apply all_valid_Forall in Hv.
  repeat split; (lia || assumption).
Qed.

Lemma haptic_stop_ok (s : svc_state) :
  Forall request_ok (fifo_haptic_data s) ->
  Forall request_ok (fifo_haptic_data (snd (haptic_stop s))).
Proof.
  intros Hs. unfold haptic_stop.
  apply queue_haptic_data_ok; [exact Hs|].
  apply request_okb_sound. reflexivity.
Qed.

Lemma haptic_process_ble_data_ok (buf : list Z) (l : Z) (s : svc_state) :
  Forall is_uint8 buf ->
  Forall request_ok (fifo_haptic_data s) ->
  Forall request_ok
    (fifo_haptic_data (snd (haptic_process_ble_data (Some buf) l s))).
Proof.
  intros Hb Hs. unfold haptic_process_ble_data.
  repeat match goal with
         | |- context [if ?c then _ else _] =>
             destruct c; try exact Hs
         end.
  - now apply haptic_play_effect_ok.
  - apply haptic_play_sequence_ok; [now apply idx_uint8|exact Hs].
  - now apply haptic_play_pattern_ok.
  - now apply haptic_stop_ok.
Qed.

(** Every request on the FIFO of a reachable service state is
    well-formed. *)
Lemma svc_reachable_fifo_ok (s : svc_state) :
  svc_reachable s -> Forall request_ok (fifo_haptic_data s).
Proof.
  induction 1 as [n | s e _ IH | s p _ IH | s es c _ IH Hc _ | s _ IH
                  | s buf l _ IH Hb _ | s s' item _ IH Hget].
  - constructor.
  - now apply haptic_play_effect_ok.
  - now apply haptic_play_pattern_ok.
  - now apply haptic_play_sequence_ok.
  - now apply haptic_stop_ok.
  - now apply haptic_process_ble_data_ok.
  - unfold haptic_get_queued_data, k_fifo_get in Hget.
    destruct (fifo_haptic_data s) as [|hd tl] eqn:E; [discriminate|].
    inversion Hget; subst. cbn [k_free fifo_haptic_data].
    now inversion IH.
Qed.

(** C10: every request on the FIFO, in any state the public entry points
    can produce, has a payload of at most 32 bytes, of the recorded
    length; the payload of a single-effect or sequence request consists
    of effects in [1, 123]. Hence on an initialized driver
    [drv2605l_play_effect] on the byte of a single-effect request and
    [drv2605l_play_sequence] on the payload of a sequence request pass the
    driver's checks: they succeed unless a bus write fails. *)
Theorem C10_queued_requests_valid (s : svc_state) (r : haptic_data_t) :
  svc_reachable s ->
  In r (fifo_haptic_data s) ->
  (0 <= len r <= HAPTIC_MAX_DATA_SIZE /\
   Z.of_nat (length (data r)) = len r) /\
  (type r = HAPTIC_PATTERN_SINGLE_EFFECT \/ type r = HAPTIC_PATTERN_SEQUENCE ->
   Forall effect_in_range (data r)) /\
  (forall (env : i2c_env) (d : drv_state),
      initialized d = true ->
      (type r = HAPTIC_PATTERN_SINGLE_EFFECT ->
       driver_accepts env d (drv2605l_play_effect env (idx (data r) 0) d)) /\
      (type r = HAPTIC_PATTERN_SEQUENCE ->
       driver_accepts env d
         (drv2605l_play_sequence env (Some (data r)) (len r) d))).
Proof.
  intros Hreach Hin.
  pose proof (svc_reachable_fifo_ok s Hreach) as Hall.
  rewrite Forall_forall in Hall. specialize (Hall r Hin).
  destruct Hall as [Hlen [Hsz Hty]].
  unfold HAPTIC_MAX_DATA_SIZE in *.
  split; [now split|]. split.
  - intros [E|E]; rewrite E in Hty; apply Hty.
  - intros env d Hini. split; intros E; rewrite E in Hty;
      destruct Hty as [Hl Hf].
    + apply driver_accepts_play_effect; [exact Hini|].
      destruct (data r) as [|e t]; [simpl in Hsz; lia|].
      now inversion Hf.
    + apply driver_accepts_play_sequence; (assumption || lia).
Qed.

End ServiceProperties.

(** ** The service on concrete buffers *)

(** C1 as stated fails in three ways: with [N = 0] the buffer has length
    [2 + N] and no invalid effect, yet it is rejected; a buffer longer
    than [2 + N] is accepted; with [N = 33] the 33rd effect is not
    examined and the request keeps only the first 32. *)
Lemma C1_counterexample :
  (let buf := [HAPTIC_CMD_PLAY_SEQUENCE; 0] in
   Z.of_nat (length buf) = 2 + 0 /\
   haptic_process_ble_data (Some buf) (Z.of_nat (length buf)) (svc_idle 4)
   = (- EINVAL, svc_idle 4)) /\
  (let buf := [HAPTIC_CMD_PLAY_SEQUENCE; 1; 1; 1] in
   Z.of_nat (length buf) <> 2 + 1 /\
   fst (haptic_process_ble_data (Some buf) (Z.of_nat (length buf))
          (svc_idle 4)) = 0) /\
  (let es := repeat 1 32 ++ [0] in
   let buf := HAPTIC_CMD_PLAY_SEQUENCE :: 33 :: es in
   let res := haptic_process_ble_data (Some buf) (Z.of_nat (length buf))
                (svc_idle 4) in
   Z.of_nat (length buf) = 2 + 33 /\
   ~ Forall effect_in_range es /\
   fst res = 0 /\
   map data (fifo_haptic_data (snd res)) = [repeat 1 32]).
Proof.
  split; [|split]; cbv zeta.
  - split; reflexivity.
  - split; [discriminate|reflexivity].
  - split; [reflexivity|]. split; [|split; reflexivity].
    intros H. apply all_valid_Forall in H. discriminate H.
Qed.

Lemma C1_sequence_command_witness :
  snd (haptic_process_ble_data (Some [HAPTIC_CMD_PLAY_SEQUENCE; 3; 1; 1; 1])
         5 (svc_idle 4))
  = enqueued {| type := HAPTIC_PATTERN_SEQUENCE;
                data := [1; 1; 1];
                len := 3 |} (svc_idle 4).
Proof.
  assert (HN : is_uint8 3) by (unfold is_uint8; lia).
  assert (Hheap : heap_free (svc_idle 4) <> 0%nat) by discriminate.
  destruct (C1_sequence_command 3 [1; 1; 1] (svc_idle 4) HN Hheap)
    as [_ [H _]].
  exact (H eq_refl).
Defined.

Lemma C7_pattern_command_witness :
  haptic_process_ble_data (Some [HAPTIC_CMD_PLAY_PATTERN; 0]) 2 (svc_idle 4)
  = (0, enqueued {| type := HAPTIC_PATTERN_SEQUENCE;
                    data := [DRV2605L_EFFECT_SHARP_CLICK_100];
                    len := 1 |} (svc_idle 4)).
Proof.
  assert (Hp : is_uint8 0) by (unfold is_uint8; lia).
  assert (Hheap : heap_free (svc_idle 4) <> 0%nat) by discriminate.
  destruct (C7_pattern_command 0 (svc_idle 4) Hp Hheap) as [_ [H _]].
  assert (H0 : 0 <= 0 <= 11) by lia.
  exact (H H0).
Defined.

Lemma C8_single_effect_command_witness :
  haptic_process_ble_data (Some [HAPTIC_CMD_PLAY_EFFECT; 47]) 2 (svc_idle 4)
  = (0, enqueued {| type := HAPTIC_PATTERN_SINGLE_EFFECT;
                    data := [47];
                    len := 1 |} (svc_idle 4)) /\
  haptic_process_ble_data (Some [HAPTIC_CMD_PLAY_EFFECT; 124]) 2 (svc_idle 4)
  = (- EINVAL, svc_idle 4).
Proof.
  split.
  - destruct (C8_single_effect_command 47 (svc_idle 4)) as [H _].
    apply H; [unfold effect_in_range; lia|discriminate].
  - destruct (C8_single_effect_command 124 (svc_idle 4)) as [_ H].
    apply H. unfold effect_in_range. lia.
Defined.

Lemma C9_stop_command_witness :
  haptic_process_ble_data (Some [HAPTIC_CMD_STOP; 9; 200]) 3 (svc_idle 4)
  = (0, enqueued {| type := HAPTIC_PATTERN_STOP; data := []; len := 0 |}
          (svc_idle 4)).
Proof.
  assert (Hheap : heap_free (svc_idle 4) <> 0%nat) by discriminate.
  exact (C9_stop_command [9; 200] (svc_idle 4) Hheap).
Defined.

Lemma C10_queued_requests_valid_witness :
  driver_accepts env_quiet drv_ready
    (drv2605l_play_sequence env_quiet
       (Some [DRV2605L_EFFECT_SHARP_CLICK_100]) 1 drv_ready).
Proof.
  assert (Hb : Forall is_uint8 [HAPTIC_CMD_PLAY_PATTERN; 0]).
  { repeat constructor; unfold HAPTIC_CMD_PLAY_PATTERN; lia. }
  assert (Hl : 0 <= 2 <= Z.of_nat (length [HAPTIC_CMD_PLAY_PATTERN; 0]))
    by (simpl; lia).
  pose proof (reach_process_ble_data (svc_idle 4)
                [HAPTIC_CMD_PLAY_PATTERN; 0] 2 (reach_boot 4) Hb Hl)
    as Hreach.
  destruct (C10_queued_requests_valid _
              {| type := HAPTIC_PATTERN_SEQUENCE;
                 data := [DRV2605L_EFFECT_SHARP_CLICK_100];
                 len := 1 |} Hreach (or_introl eq_refl)) as [_ [_ H]].
  destruct (H env_quiet drv_ready eq_refl) as [_ Hseq].
  exact (Hseq eq_refl).
Defined.

(** ** Further properties of the driver *)

Section DriverTraces.

Variable env : i2c_env.


Lemma prefix_of_last {A : Type} (p a : list A) (x y : A) :
  prefix_of p (a ++ [x]) -> In y p -> ~ In y a -> p = a ++ [x].
Proof.
  intros [rest Hp] Hy Hna.
  destruct rest as [|r0 rest0]; [now rewrite app_nil_r in Hp|].
  destruct (exists_last (l := r0 :: rest0)) as [rest' [z Hr]];
    [discriminate|].
  rewrite Hr, app_assoc in Hp. apply app_inj_tail in Hp.
  destruct Hp as [Ha _]. exfalso. apply Hna. rewrite Ha.
  apply in_or_app. now left.
Qed.

(** A whole sequence of at most 8 accepted effects, on a bus without
    failures. *)
Lemma play_sequence_whole (Hbus : bus_never_fails env) (es : list Z)
    (s : drv_state) :
  initialized s = true ->
  (1 <= length es <= 8)%nat ->
  Forall effect_in_range es ->
  exists evs,
    drv2605l_play_sequence env (Some es) (Z.of_nat (length es)) s
    = (0, extend_log evs s) /\
    map op_of evs = map wr (sequence_writes es).
Proof.
  intros Hini Hlen Hall.
  assert (Hc : 1 <= Z.of_nat (length es) <= 255) by lia.
  rewrite drv2605l_play_sequence_eq by assumption. cbv zeta.
  assert (Hn : Z.to_nat (programmed_count (Z.of_nat (length es)))
               = length es).
  { unfold programmed_count, DRV2605L_MAX_WAVEFORM_SEQ. lia. }
  rewrite Hn, reads_from_start, firstn_all by lia.
  apply all_valid_Forall in Hall. rewrite Hall.
  apply run_writes_ok, Hbus.
Qed.

(** A sequence of 1 to 8 accepted effects is programmed whole: slot [i]
    receives the i-th effect, the slot after the last one receives the
    terminator 0 when fewer than 8 are used, and the GO register is
    written last. The call returns 0 on a bus without failures; the same
    input gives the same writes from any driver state. *)
Theorem drv2605l_play_sequence_whole (es : list Z) (s : drv_state) :
  bus_never_fails env ->
  initialized s = true ->
  (1 <= length es <= 8)%nat ->
  Forall effect_in_range es ->
  exists evs,
    drv2605l_play_sequence env (Some es) (Z.of_nat (length es)) s
    = (0, extend_log evs s) /\
    map op_of evs =
      map wr (slot_writes 0 es)
      ++ (if (length es <? 8)%nat
          then [OpWrite (DRV2605L_REG_WAVESEQ1 + Z.of_nat (length es)) 0]
          else [])
      ++ [OpWrite DRV2605L_REG_GO 1].
Proof.
  intros Hbus Hini Hlen Hall.
  destruct (play_sequence_whole Hbus es s Hini Hlen Hall) as [evs [Hr Hops]].
  exists evs. split; [exact Hr|]. rewrite Hops. unfold sequence_writes.
  rewrite !map_app. f_equal. f_equal.
  unfold DRV2605L_MAX_WAVEFORM_SEQ.
  destruct (Nat.ltb_spec (length es) 8);
    destruct (Z.ltb_spec (Z.of_nat (length es)) 8); try lia; reflexivity.
Qed.

(** [drv2605l_play_sequence] never triggers a sequence it has not
    programmed in full: whatever the arguments, the driver state and the
    bus do, if the call writes the GO register then the driver was
    initialized, every programmed effect (the first [min count 8]) is in
    [1, 123], and the transactions of the call are exactly the slot
    writes, the terminator if a slot remains, and then GO with value 1. *)
Theorem drv2605l_play_sequence_go_last (effects : option (list Z))
    (count : Z) (s : drv_state) :
  is_uint8 count ->
  match effects with
  | Some es => count <= Z.of_nat (length es)
  | None => True
  end ->
  let res := drv2605l_play_sequence env effects count s in
  exists evs,
    snd res = extend_log evs s /\
    forall value ret,
      In (BusWrite DRV2605L_REG_GO value ret) evs ->
      exists es,
        effects = Some es /\
        initialized s = true /\
        let l := firstn (Z.to_nat (programmed_count count)) es in
        Forall effect_in_range l /\
        map op_of evs = map wr (sequence_writes l).
Proof.
  intros Hc Hlen res.
  assert (Hnone : forall r, res = (r, s) ->
            exists evs, snd res = extend_log evs s /\
              forall value ret,
                In (BusWrite DRV2605L_REG_GO value ret) evs ->
                exists es, effects = Some es /\ initialized s = true /\
                  let l := firstn (Z.to_nat (programmed_count count)) es in
                  Forall effect_in_range l /\
                  map op_of evs = map wr (sequence_writes l)).
  { intros r Hr. exists []. rewrite Hr, extend_log_nil.
    split; [reflexivity|]. intros v r' []. }
  destruct (initialized s) eqn:Hini.
  2:{ apply (Hnone (- ENODEV)). unfold res, drv2605l_play_sequence, cfun,
        bind, call, get_initialized. now rewrite Hini. }
  destruct effects as [es|].
  2:{ apply (Hnone (- EINVAL)). unfold res, drv2605l_play_sequence, cfun,
        bind, call, get_initialized. now rewrite Hini. }
  destruct (Z.eq_dec count 0) as [->|Hnz].
  { apply (Hnone (- EINVAL)). unfold res, drv2605l_play_sequence, cfun,
      bind, call, get_initialized. now rewrite Hini. }
  unfold is_uint8 in Hc.
  assert (Hc' : 1 <= count <= 255) by lia.
  destruct (drv2605l_play_sequence_spec env es count s Hini Hc' Hlen)
    as [evs [Hs [Hp _]]].
  fold res in Hs.
  pose proof (firstn_programmed_length es count (proj1 Hc') Hlen) as Hn.
  set (l := firstn (Z.to_nat (programmed_count count)) es) in *.
  assert (Hl8 : Z.of_nat (length l) <= 8).
  { rewrite Hn. unfold programmed_count, DRV2605L_MAX_WAVEFORM_SEQ. lia. }
  exists evs. split; [exact Hs|].
  intros v r Hin. exists es. split; [reflexivity|]. split; [reflexivity|].
  cbv zeta. fold l. apply write_event_op in Hin.
  destruct (all_valid l) eqn:Hv.
  - split; [now apply all_valid_Forall|].
    unfold sequence_writes in *.
    rewrite app_assoc, map_app in Hp. rewrite app_assoc, map_app.
    cbn [map] in *.
    apply (prefix_of_last _ _ _ (OpWrite DRV2605L_REG_GO v) Hp Hin).
    intros Hbad. apply wr_In in Hbad.
    apply in_app_or in Hbad. destruct Hbad as [Hbad|Hbad].
    + apply slot_writes_In in Hbad. destruct Hbad as [Hbad _].
      cbn [fst] in Hbad.
      unfold DRV2605L_REG_GO, DRV2605L_REG_WAVESEQ1 in Hbad. lia.
    + destruct (Z.ltb_spec (Z.of_nat (length l)) DRV2605L_MAX_WAVEFORM_SEQ)
        as [Hlt|Hge]; [|destruct Hbad].
      destruct Hbad as [Hbad|[]].
      unfold DRV2605L_MAX_WAVEFORM_SEQ in Hlt.
      assert (Hreg : DRV2605L_REG_WAVESEQ1 + Z.of_nat (length l)
                     = DRV2605L_REG_GO) by congruence.
      unfold DRV2605L_REG_GO, DRV2605L_REG_WAVESEQ1 in Hreg. lia.
  - exfalso.
    apply (prefix_of_In _ _ _ Hp), wr_In, slot_writes_In in Hin.
    destruct Hin as [Hin _]. cbn [fst] in Hin.
    pose proof (take_valid_length l) as Ht.
    unfold DRV2605L_REG_GO, DRV2605L_REG_WAVESEQ1 in Hin. lia.
Qed.

Lemma drv2605l_init_sign (type : drv2605l_motor_type_t) (s : drv_state) :
  fst (drv2605l_init env type s) = 0 \/ fst (drv2605l_init env type s) < 0.
Proof.
  rewrite drv2605l_init_eq.
  destruct (bus_ready env); cbn [negb];
    [|right; cbn [fst]; unfold ENODEV; lia].
  cbv zeta.
  destruct (Z.ltb_spec (fst (i2c_reply env (length (bus_log s)))) 0)
    as [Hlt|Hge]; [now right|].
  set (s1 := log_event _ _).
  destruct (write_regs_spec env (init_writes type) s1) as [evs [_ Hf]].
  destruct (write_regs env (init_writes type) s1) as [[r|u] s2];
    cbn [fst] in *; [right; apply Hf|now left].
Qed.

Lemma drv2605l_init_motor_type (type : drv2605l_motor_type_t)
    (s : drv_state) :
  motor_type (snd (drv2605l_init env type s))
  = if bus_ready env then type else motor_type s.
Proof.
  rewrite drv2605l_init_eq.
  destruct (bus_ready env); cbn [negb]; [|reflexivity].
  cbv zeta.
  destruct (fst (i2c_reply env (length (bus_log s))) <? 0);
    [reflexivity|].
  set (s1 := log_event _ _).
  destruct (write_regs_spec env (init_writes type) s1) as [evs [Hs _]].
  destruct (write_regs env (init_writes type) s1) as [[r|u] s2];
    cbn [fst snd] in *; subst s2; reflexivity.
Qed.

Lemma drv2605l_init_needs_bus (type : drv2605l_motor_type_t)
    (s : drv_state) :
  fst (drv2605l_init env type s) = 0 -> bus_ready env = true.
Proof.
  rewrite drv2605l_init_eq.
  destruct (bus_ready env); cbn [negb fst]; [reflexivity|].
  unfold ENODEV. lia.
Qed.

(** What [drv2605l_init] does to the driver statics: [initialized] is set
    exactly when the call returns 0 and is otherwise left as it was (a
    failed re-initialization does not clear it), while [motor_type] is
    overwritten as soon as the bus device is ready, also when the call
    then fails. The return code is 0 or negative. *)
Theorem drv2605l_init_statics (type : drv2605l_motor_type_t)
    (s : drv_state) :
  let res := drv2605l_init env type s in
  (fst res = 0 \/ fst res < 0) /\
  initialized (snd res) = (if fst res =? 0 then true else initialized s) /\
  motor_type (snd res) = (if bus_ready env then type else motor_type s).
Proof.
  cbv zeta. split; [apply drv2605l_init_sign|].
  split; [apply drv2605l_init_initialized|apply drv2605l_init_motor_type].
Qed.




Lemma playback_writes (ws : list (Z * Z)) (evs : list bus_event) :
  prefix_of (map op_of evs) (map wr ws) ->
  (forall w, In w ws ->
             DRV2605L_REG_WAVESEQ1 <= fst w <= DRV2605L_REG_GO) ->
  Forall playback_op (map op_of evs).
Proof.
  intros Hp Hws. apply Forall_forall. intros o Ho.
  apply (prefix_of_In _ _ _ Hp) in Ho.
  apply in_map_iff in Ho. destruct Ho as [w [<- Hw]].
  apply Hws in Hw. exact Hw.
Qed.

(** The registers the playback calls can touch, whatever the driver state
    and the bus: [drv2605l_play_effect] and [drv2605l_play_sequence] only
    write waveform slots and the GO register, never the mode, library or
    configuration registers, and they read nothing. Neither changes the
    driver statics. *)
Theorem playback_register_footprint (s : drv_state) :
  (forall effect,
      exists evs,
        snd (drv2605l_play_effect env effect s) = extend_log evs s /\
        Forall playback_op (map op_of evs)) /\
  (forall effects count,
      is_uint8 count ->
      match effects with
      | Some es => count <= Z.of_nat (length es)
      | None => True
      end ->
      exists evs,
        snd (drv2605l_play_sequence env effects count s) = extend_log evs s /\
        Forall playback_op (map op_of evs)).
Proof.
  assert (Hnil : forall (P : bus_op -> Prop) (res : Z * drv_state) r,
             res = (r, s) ->
             exists evs, snd res = extend_log evs s /\
                         Forall P (map op_of evs)).
  { intros P res r ->. exists []. rewrite extend_log_nil.
    split; [reflexivity|constructor]. }
  split.
  - intros effect.
    destruct (initialized s) eqn:Hini.
    2:{ apply (Hnil _ _ (- ENODEV)).
        unfold drv2605l_play_effect, cfun, bind, call, get_initialized.
        now rewrite Hini. }
    destruct (effect_out_of_range effect) eqn:He.
    { apply (Hnil _ _ (- EINVAL)).
      unfold drv2605l_play_effect, cfun, bind, call, get_initialized.
      now rewrite Hini, He. }
    apply effect_out_of_range_false in He.
    rewrite drv2605l_play_effect_eq by assumption.
    destruct (run_writes_spec env
                [ (DRV2605L_REG_WAVESEQ1, effect);
                  (DRV2605L_REG_WAVESEQ2, 0);
                  (DRV2605L_REG_GO, 1) ] 0 s) as [evs [Hs [Hp _]]].
    exists evs. split; [exact Hs|].
    apply (playback_writes _ _ Hp).
    intros w Hw. in_cases Hw; subst w; cbn [fst];
      unfold DRV2605L_REG_WAVESEQ1, DRV2605L_REG_WAVESEQ2, DRV2605L_REG_GO;
      lia.
  - intros effects count Hc Hlen.
    destruct (initialized s) eqn:Hini.
    2:{ apply (Hnil _ _ (- ENODEV)).
        unfold drv2605l_play_sequence, cfun, bind, call, get_initialized.
        now rewrite Hini. }
    destruct effects as [es|].
    2:{ apply (Hnil _ _ (- EINVAL)).
        unfold drv2605l_play_sequence, cfun, bind, call, get_initialized.
        now rewrite Hini. }
    destruct (Z.eq_dec count 0) as [->|Hnz].
    { apply (Hnil _ _ (- EINVAL)).
      unfold drv2605l_play_sequence, cfun, bind, call, get_initialized.
      now rewrite Hini. }
    unfold is_uint8 in Hc.
    assert (Hc' : 1 <= count <= 255) by lia.
    destruct (drv2605l_play_sequence_spec env es count s Hini Hc' Hlen)
      as [evs [Hs [Hp _]]].
    pose proof (firstn_programmed_length es count (proj1 Hc') Hlen) as Hn.
    set (l := firstn (Z.to_nat (programmed_count count)) es) in *.
    assert (Hl8 : Z.of_nat (length l) <= 8).
    { rewrite Hn. unfold programmed_count, DRV2605L_MAX_WAVEFORM_SEQ. lia. }
    exists evs. split; [exact Hs|].
    apply (playback_writes _ _ Hp).
    intros w Hw.
    destruct (all_valid l).
    + unfold sequence_writes in Hw. in_cases Hw.
      * apply slot_writes_In in Hw. destruct Hw as [Hw _].
        unfold DRV2605L_REG_WAVESEQ1, DRV2605L_REG_GO in *. lia.
      * destruct (Z.of_nat (length l) <? DRV2605L_MAX_WAVEFORM_SEQ);
          in_cases Hw. subst w. cbn [fst].
        unfold DRV2605L_REG_WAVESEQ1, DRV2605L_REG_GO. lia.
      * subst w. cbn [fst].
        unfold DRV2605L_REG_WAVESEQ1, DRV2605L_REG_GO. lia.
    + apply slot_writes_In in Hw. destruct Hw as [Hw _].
      pose proof (take_valid_length l) as Ht.
      unfold DRV2605L_REG_WAVESEQ1, DRV2605L_REG_GO in *. lia.
Qed.

(** The registers the control calls can touch, whatever the driver state
    and the bus: [drv2605l_stop] only writes 0 to GO, [drv2605l_standby]
    and [drv2605l_wakeup] only write the mode register (standby,
    respectively internal trigger), and [drv2605l_is_playing] only reads
    GO. Each makes at most one transaction, and none changes the driver
    statics. *)
Theorem control_register_footprint (s : drv_state) :
  (exists evs,
      snd (drv2605l_stop env s) = extend_log evs s /\
      (length evs <= 1)%nat /\
      Forall (eq (OpWrite DRV2605L_REG_GO 0)) (map op_of evs)) /\
  (exists evs,
      snd (drv2605l_standby env s) = extend_log evs s /\
      (length evs <= 1)%nat /\
      Forall (eq (OpWrite DRV2605L_REG_MODE DRV2605L_MODE_STANDBY))
             (map op_of evs)) /\
  (exists evs,
      snd (drv2605l_wakeup env s) = extend_log evs s /\
      (length evs <= 1)%nat /\
      Forall (eq (OpWrite DRV2605L_REG_MODE DRV2605L_MODE_INTTRIG))
             (map op_of evs)) /\
  (exists evs,
      snd (drv2605l_is_playing env s) = extend_log evs s /\
      (length evs <= 1)%nat /\
      Forall (eq (OpRead DRV2605L_REG_GO)) (map op_of evs)).
Proof.
  assert (Hone : forall (reg v : Z) (b : body Empty_set),
             (forall s', b s' = Return 0 s') ->
             exists evs,
               snd (cfun (bind (call get_initialized)
                            (fun init =>
                               if negb init then Return (- ENODEV)
                               else bind (check (drv2605l_write_reg env reg v))
                                         (fun _ => b))) s)
               = extend_log evs s /\
               (length evs <= 1)%nat /\
               Forall (eq (OpWrite reg v)) (map op_of evs)).
  { intros reg v b Hb. unfold cfun, bind at 1, call, get_initialized.
    destruct (initialized s); cbn [negb].
    - unfold bind. rewrite check_write_reg. cbv zeta.
      exists [BusWrite reg v (fst (i2c_reply env (length (bus_log s))))].
      split; [|split; [cbn; lia|now repeat constructor]].
      destruct (_ <? 0); [reflexivity|]. now rewrite Hb.
    - exists []. rewrite extend_log_nil.
      split; [reflexivity|]. split; [cbn; lia|constructor]. }
  split; [|split; [|split]].
  - apply (Hone DRV2605L_REG_GO 0). reflexivity.
  - apply (Hone DRV2605L_REG_MODE DRV2605L_MODE_STANDBY). reflexivity.
  - apply (Hone DRV2605L_REG_MODE DRV2605L_MODE_INTTRIG). reflexivity.
  - unfold drv2605l_is_playing.
    destruct (initialized s); cbn [negb].
    + unfold drv2605l_read_reg, i2c_write_read_dt.
      destruct (i2c_reply env (length (bus_log s))) as [ret v].
      exists [BusRead DRV2605L_REG_GO ret v].
      split; [|split; [cbn; lia|now repeat constructor]].
      destruct (Z.ltb_spec ret 0) as [Hlt|Hge].
      * replace (ret <? 0) with true by (symmetry; apply Z.ltb_lt; lia).
        reflexivity.
      * change (0 <? 0) with false. reflexivity.
    + exists []. rewrite extend_log_nil.
      split; [reflexivity|]. split; [cbn; lia|constructor].
Qed.

End DriverTraces.


(** ** Further properties of the haptic service *)

Section ServiceOutcomes.

Lemma queue_haptic_data_all_or_nothing (t : haptic_pattern_type_t)
    (d : option (list Z)) (l : Z) (s : svc_state) :
  all_or_nothing s (queue_haptic_data t d l s).
Proof.
  rewrite queue_haptic_data_eq. unfold all_or_nothing.
  destruct (l >? HAPTIC_MAX_DATA_SIZE); [right; auto|].
  destruct (heap_free s) eqn:E; [right; auto|].
  left. cbn [fst snd]. split; [reflexivity|]. split; [discriminate|].
  eexists. reflexivity.
Qed.

Lemma all_or_nothing_error (s : svc_state) (r : Z) :
  r = - EINVAL \/ r = - ENOTSUP -> all_or_nothing s (r, s).
Proof.
  intros H. right. split; [reflexivity|]. cbn [fst]. tauto.
Qed.

Lemma haptic_process_ble_data_all_or_nothing (data : option (list Z))
    (len : Z) (s : svc_state) :
  all_or_nothing s (haptic_process_ble_data data len s).
Proof.
  unfold haptic_process_ble_data, haptic_play_effect, haptic_play_pattern,
    haptic_play_sequence, haptic_stop.
  destruct data as [buf|]; [|apply all_or_nothing_error; auto].
  repeat match goal with
         | |- context [if ?c then _ else _] =>
             destruct c; try (apply all_or_nothing_error; auto)
         end;
    apply queue_haptic_data_all_or_nothing.
Qed.

Lemma service_calls_all_or_nothing_aux (s : svc_state) :
  (forall effect : Z, all_or_nothing s (haptic_play_effect effect s)) /\
  (forall pattern : Z, all_or_nothing s (haptic_play_pattern pattern s)) /\
  (forall (es : option (list Z)) (n : Z),
      all_or_nothing s (haptic_play_sequence es n s)) /\
  all_or_nothing s (haptic_stop s) /\
  (forall data len, all_or_nothing s (haptic_process_ble_data data len s)).
Proof.
  split; [|split; [|split; [|split]]].
  - intros effect. unfold haptic_play_effect.
    destruct (effect_out_of_range effect);
      [apply all_or_nothing_error; auto
      |apply queue_haptic_data_all_or_nothing].
  - intros pattern. unfold haptic_play_pattern.
    destruct (pattern >=? ARRAY_SIZE predefined_patterns);
      [apply all_or_nothing_error; auto
      |apply queue_haptic_data_all_or_nothing].
  - intros es n. unfold haptic_play_sequence.
    destruct es as [es|]; [|apply all_or_nothing_error; auto].
    repeat match goal with
           | |- context [if ?c then _ else _] =>
               destruct c; try (apply all_or_nothing_error; auto)
           end;
      apply queue_haptic_data_all_or_nothing.
  - apply queue_haptic_data_all_or_nothing.
  - intros d l. apply haptic_process_ble_data_all_or_nothing.
Qed.


(** Every public entry point of the service is all or nothing: it either
    returns 0 after taking one heap block and appending exactly one request
    at the tail of the FIFO, or returns [-EINVAL], [-ENOTSUP] or [-ENOMEM]
    and leaves FIFO and heap untouched; [-ENOMEM] occurs only when no block
    is left. An error never leaks a block or leaves a partial request. *)
Theorem service_calls_all_or_nothing (s : svc_state) :
  (forall effect : Z, all_or_nothing s (haptic_play_effect effect s)) /\
  (forall pattern : Z, all_or_nothing s (haptic_play_pattern pattern s)) /\
  (forall (es : option (list Z)) (n : Z),
      all_or_nothing s (haptic_play_sequence es n s)) /\
  all_or_nothing s (haptic_stop s) /\
  (forall data len, all_or_nothing s (haptic_process_ble_data data len s)).
Proof.
  exact (service_calls_all_or_nothing_aux s).
Qed.

(** Each entry point and each request freed by the haptic thread keeps
    the number of accounted blocks: a block leaves the heap exactly when a
    request enters the FIFO and comes back when the request is taken off
    and freed, so no sequence of calls leaks or invents memory. *)
Theorem service_conserves_blocks (s : svc_state) :
  (forall effect : Z, blocks (snd (haptic_play_effect effect s)) = blocks s) /\
  (forall pattern : Z,
      blocks (snd (haptic_play_pattern pattern s)) = blocks s) /\
  (forall (es : option (list Z)) (n : Z),
      blocks (snd (haptic_play_sequence es n s)) = blocks s) /\
  blocks (snd (haptic_stop s)) = blocks s /\
  (forall (d : option (list Z)) (l : Z),
      blocks (snd (haptic_process_ble_data d l s)) = blocks s) /\
  (forall item s',
      haptic_get_queued_data s = Some (item, s') ->
      blocks (k_free s') = blocks s).
Proof.
  assert (Hq : forall res, all_or_nothing s res -> blocks (snd res) = blocks s).
  { intros res [[_ [Hh [r Hs]]]|[Hs _]]; rewrite Hs; [|reflexivity].
    unfold blocks, enqueued. cbn [heap_free fifo_haptic_data].
    rewrite length_app. cbn [length]. lia. }
  pose proof (service_calls_all_or_nothing_aux s) as [H1 [H2 [H3 [H4 H5]]]].
  repeat split; intros; try (apply Hq; auto).
  unfold haptic_get_queued_data, k_fifo_get in H.
  destruct (fifo_haptic_data s) as [|hd tl] eqn:E; [discriminate|].
  inversion H; subst. unfold blocks, k_free.
  cbn [heap_free fifo_haptic_data]. rewrite E. cbn [length]. lia.
Qed.

(** What the decoder refuses without looking further: a null buffer or a
    length below 1 gives [-EINVAL]; a first byte outside 0x01..0x04 gives
    [-ENOTSUP] whatever follows; a play-effect, play-sequence or
    play-pattern command of length 1 (its argument byte missing) gives
    [-EINVAL]. The service state is unchanged in each case. *)
Theorem haptic_process_ble_data_rejects (data : option (list Z)) (len : Z)
    (s : svc_state) :
  let res := haptic_process_ble_data data len s in
  (data = None \/ len < 1 -> res = (- EINVAL, s)) /\
  (forall buf,
      data = Some buf ->
      1 <= len ->
      (idx buf 0 < 1 \/ 4 < idx buf 0 -> res = (- ENOTSUP, s)) /\
      (1 <= idx buf 0 <= 3 -> len < 2 -> res = (- EINVAL, s))).
Proof.
  cbv zeta. unfold haptic_process_ble_data. split.
  - intros [->|Hlen]; [reflexivity|].
    destruct data as [buf|]; [|reflexivity].
    now replace (len <? 1) with true by (symmetry; apply Z.ltb_lt; lia).
  - intros buf -> Hlen.
    replace (len <? 1) with false by (symmetry; apply Z.ltb_ge; lia).
    unfold HAPTIC_CMD_PLAY_EFFECT, HAPTIC_CMD_PLAY_SEQUENCE,
      HAPTIC_CMD_PLAY_PATTERN, HAPTIC_CMD_STOP.
    split.
    + intros Hcmd.
      repeat match goal with
             | |- context [idx buf 0 =? ?k] =>
                 replace (idx buf 0 =? k) with false
                   by (symmetry; apply Z.eqb_neq; lia)
             end.
      reflexivity.
    + intros Hcmd Hshort.
      replace (len <? 2) with true by (symmetry; apply Z.ltb_lt; lia).
      destruct (Z.eqb_spec (idx buf 0) 1); [reflexivity|].
      destruct (Z.eqb_spec (idx buf 0) 2); [reflexivity|].
      destruct (Z.eqb_spec (idx buf 0) 3); [reflexivity|]. lia.
Qed.

(** Validation comes before allocation and does not depend on the heap:
    with an exhausted heap, exactly the calls that would have been accepted
    return [-ENOMEM], and a refused buffer gets the same error code as with
    memory available. *)
Theorem validation_precedes_allocation (data : option (list Z)) (len : Z)
    (s1 s2 : svc_state) :
  heap_free s1 = 0%nat ->
  heap_free s2 <> 0%nat ->
  let r1 := fst (haptic_process_ble_data data len s1) in
  let r2 := fst (haptic_process_ble_data data len s2) in
  (r2 = 0 -> r1 = - ENOMEM) /\ (r2 <> 0 -> r1 = r2).
Proof.
  intros H1 H2. cbv zeta.
  assert (Hq : forall t d l,
             (fst (queue_haptic_data t d l s2) = 0 ->
              fst (queue_haptic_data t d l s1) = - ENOMEM) /\
             (fst (queue_haptic_data t d l s2) <> 0 ->
              fst (queue_haptic_data t d l s1)
              = fst (queue_haptic_data t d l s2))).
  { intros t d l. rewrite !queue_haptic_data_eq, H1.
    destruct (heap_free s2); [contradiction|].
    destruct (l >? HAPTIC_MAX_DATA_SIZE); cbn [fst]; unfold EINVAL;
      split; intros; (reflexivity || lia). }
  unfold haptic_process_ble_data, haptic_play_effect, haptic_play_pattern,
    haptic_play_sequence, haptic_stop. cbv zeta.
  destruct data as [buf|]; [|split; [cbn [fst]; unfold EINVAL; lia|auto]].
  repeat match goal with
         | |- context [if ?c then _ else _] => destruct c
         end;
    try apply Hq;
    cbn [fst]; unfold EINVAL, ENOTSUP; split; intros; (reflexivity || lia).
Qed.

Lemma pattern_cases (p : Z) :
  0 <= p <= 11 ->
  p = 0 \/ p = 1 \/ p = 2 \/ p = 3 \/ p = 4 \/ p = 5 \/
  p = 6 \/ p = 7 \/ p = 8 \/ p = 9 \/ p = 10 \/ p = 11.
Proof. lia. Qed.

Lemma pattern_effects_ok (p : Z) :
  0 <= p <= 11 ->
  (1 <= length (pattern_effects p) <= 3)%nat /\
  Forall effect_in_range (pattern_effects p).
Proof.
  intros Hp. apply pattern_cases in Hp.
  repeat (destruct Hp as [->|Hp];
          [split; [split; apply Nat.leb_le; reflexivity
                  |apply all_valid_Forall; reflexivity]|]).
  subst p. split; [split; apply Nat.leb_le; reflexivity
                  |apply all_valid_Forall; reflexivity].
Qed.

Lemma pattern_command_queued (p : Z) (s : svc_state) :
  0 <= p <= 11 ->
  heap_free s <> 0%nat ->
  haptic_process_ble_data (Some [HAPTIC_CMD_PLAY_PATTERN; p]) 2 s
  = (0, enqueued {| type := HAPTIC_PATTERN_SEQUENCE;
                    data := pattern_effects p;
                    len := Z.of_nat (length (pattern_effects p)) |} s).
Proof.
  intros Hp Hheap. unfold haptic_process_ble_data.
  change (2 <? 1) with false. change (2 <? 2) with false.
  change (idx [HAPTIC_CMD_PLAY_PATTERN; p] 0) with HAPTIC_CMD_PLAY_PATTERN.
  change (idx [HAPTIC_CMD_PLAY_PATTERN; p] 1) with p.
  change (HAPTIC_CMD_PLAY_PATTERN =? HAPTIC_CMD_PLAY_EFFECT) with false.
  change (HAPTIC_CMD_PLAY_PATTERN =? HAPTIC_CMD_PLAY_SEQUENCE) with false.
  change (HAPTIC_CMD_PLAY_PATTERN =? HAPTIC_CMD_PLAY_PATTERN) with true.
  cbv iota. unfold haptic_play_pattern.
  change (ARRAY_SIZE predefined_patterns) with 12.
  replace (p >=? 12) with false
    by (symmetry; rewrite Z.geb_leb; apply Z.leb_gt; lia).
  rewrite queue_haptic_data_eq. unfold pattern_effects.
  destruct (heap_free s); [contradiction|].
  apply pattern_cases in Hp.
  repeat (destruct Hp as [->|Hp]; [reflexivity|]).
  subst p. reflexivity.
Qed.

(** From the pattern command to the registers: for every pattern id [p]
    in [0, 11], the buffer [0x03, p] queues a sequence request whose
    payload is the pattern's 1 to 3 effects, and playing that request on an
    initialized driver (bus without failures) writes every effect of the
    pattern to the slots 1.., then the terminator 0 to the next slot, then
    the GO trigger. No predefined pattern is truncated or refused by the
    driver. *)
Theorem predefined_pattern_played_whole (env : i2c_env) (p : Z)
    (s : svc_state) (d : drv_state) :
  bus_never_fails env ->
  0 <= p <= 11 ->
  heap_free s <> 0%nat ->
  initialized d = true ->
  exists r evs,
    haptic_process_ble_data (Some [HAPTIC_CMD_PLAY_PATTERN; p]) 2 s
    = (0, enqueued r s) /\
    type r = HAPTIC_PATTERN_SEQUENCE /\
    data r = pattern_effects p /\
    (1 <= length (pattern_effects p) <= 3)%nat /\
    drv2605l_play_sequence env (Some (data r)) (len r) d
    = (0, extend_log evs d) /\
    map op_of evs =
      map wr (slot_writes 0 (pattern_effects p))
      ++ [ OpWrite (DRV2605L_REG_WAVESEQ1
                    + Z.of_nat (length (pattern_effects p))) 0;
           OpWrite DRV2605L_REG_GO 1 ].
Proof.
  intros Hbus Hp Hheap Hini.
  destruct (pattern_effects_ok p Hp) as [Hlen Hall].
  assert (Hlen8 : (1 <= length (pattern_effects p) <= 8)%nat) by lia.
  destruct (play_sequence_whole env Hbus (pattern_effects p) d Hini Hlen8 Hall)
    as [evs [Hplay Hops]].
  exists {| type := HAPTIC_PATTERN_SEQUENCE;
            data := pattern_effects p;
            len := Z.of_nat (length (pattern_effects p)) |}, evs.
  split; [now apply pattern_command_queued|].
  cbn [type data len]. repeat split; try (exact Hplay || lia).
  rewrite Hops. unfold sequence_writes. rewrite map_app. f_equal.
  replace (Z.of_nat (length (pattern_effects p)) <? DRV2605L_MAX_WAVEFORM_SEQ)
    with true
    by (symmetry; apply Z.ltb_lt; unfold DRV2605L_MAX_WAVEFORM_SEQ; lia).
  reflexivity.
Qed.

(** The initialization handshake: [haptic_service_init] initializes the
    driver for the ERM motor and gives [haptic_init_ok] only on success.
    It never touches the request FIFO. When it returns 0 the driver is
    initialized with motor type ERM and [haptic_wait_init] does not block;
    when it fails the code is negative, the semaphore keeps its count and
    the driver is no more initialized than before. Starting from a count
    of 0, the haptic thread gets past [haptic_wait_init] exactly when the
    initialization succeeded. *)
Theorem haptic_service_init_handshake (env : i2c_env) (s : haptic_sys) :
  let res := haptic_service_init env s in
  service (snd res) = service s /\
  (fst res = 0 ->
   initialized (driver (snd res)) = true /\
   motor_type (driver (snd res)) = DRV2605L_MOTOR_ERM /\
   haptic_wait_init (snd res) <> None) /\
  (fst res <> 0 ->
   fst res < 0 /\
   haptic_init_ok (snd res) = haptic_init_ok s /\
   initialized (driver (snd res)) = initialized (driver s)) /\
  (haptic_init_ok s = 0%nat ->
   (haptic_wait_init (snd res) <> None <-> fst res = 0)).
Proof.
  cbv zeta. unfold haptic_service_init.
  pose proof (drv2605l_init_sign env DRV2605L_MOTOR_ERM (driver s)) as Hsign.
  pose proof (drv2605l_init_initialized env DRV2605L_MOTOR_ERM (driver s))
    as Hinit.
  pose proof (drv2605l_init_motor_type env DRV2605L_MOTOR_ERM (driver s))
    as Hmt.
  pose proof (drv2605l_init_needs_bus env DRV2605L_MOTOR_ERM (driver s))
    as Hbus.
  destruct (drv2605l_init env DRV2605L_MOTOR_ERM (driver s)) as [ret d].
  cbn [fst snd] in *.
  destruct Hsign as [->|Hneg].
  - change (0 <? 0) with false. cbn [fst snd service driver haptic_init_ok].
    change (0 =? 0) with true in Hinit. rewrite (Hbus eq_refl) in Hmt.
    assert (Hw : forall n,
               haptic_wait_init
                 {| driver := d; service := service s;
                    haptic_init_ok := k_sem_give HAPTIC_INIT_OK_LIMIT n |}
               <> None).
    { intros n. unfold haptic_wait_init, k_sem_give, HAPTIC_INIT_OK_LIMIT.
      cbn [haptic_init_ok]. destruct n as [|n]; cbn; discriminate. }
    split; [reflexivity|]. split; [intros _; now repeat split|].
    split; [intros H; contradiction|].
    intros _. split; [reflexivity|]. intros _. apply Hw.
  - replace (ret <? 0) with true by (symmetry; apply Z.ltb_lt; lia).
    cbn [fst snd service driver haptic_init_ok].
    replace (ret =? 0) with false in Hinit
      by (symmetry; apply Z.eqb_neq; lia).
    split; [reflexivity|]. split; [intros H; lia|].
    split; [intros _; now repeat split|].
    intros H0. unfold haptic_wait_init. cbn [haptic_init_ok]. rewrite H0.
    cbn. split; [intros H; contradiction|intros H; lia].
Qed.

End ServiceOutcomes.

(** ** The BLE receive callback *)

Section Callback.

(** [sizeof(tx->data)] and the allocation outcomes, as in [Main]. *)
Variable B : Z.
Variable alloc : nat -> bool.

Lemma haptic_command_supported (buf : list Z) (len : Z) (s : svc_state) :
  1 <= idx buf 0 <= 4 ->
  fst (haptic_process_ble_data (Some buf) len s) <> - ENOTSUP.
Proof.
  intros Hcmd.
  assert (Hq : forall t d l, fst (queue_haptic_data t d l s) <> - ENOTSUP).
  { intros t d l. rewrite queue_haptic_data_eq.
    destruct (l >? HAPTIC_MAX_DATA_SIZE);
      [cbn [fst]; unfold EINVAL, ENOTSUP; lia|].
    destruct (heap_free s); cbn [fst]; unfold ENOMEM, ENOTSUP; lia. }
  unfold haptic_process_ble_data, haptic_play_effect, haptic_play_pattern,
    haptic_play_sequence, haptic_stop,
    HAPTIC_CMD_PLAY_EFFECT, HAPTIC_CMD_PLAY_SEQUENCE,
    HAPTIC_CMD_PLAY_PATTERN, HAPTIC_CMD_STOP.
  cbv zeta.
  destruct (len <? 1); [cbn [fst]; unfold EINVAL, ENOTSUP; lia|].
  destruct (Z.eqb_spec (idx buf 0) 1).
  { repeat match goal with
           | |- context [if ?c then _ else _] => destruct c
           end; try apply Hq; cbn [fst]; unfold EINVAL, ENOTSUP; lia. }
  destruct (Z.eqb_spec (idx buf 0) 2).
  { repeat match goal with
           | |- context [if ?c then _ else _] => destruct c
           end; try apply Hq; cbn [fst]; unfold EINVAL, ENOTSUP; lia. }
  destruct (Z.eqb_spec (idx buf 0) 3).
  { repeat match goal with
           | |- context [if ?c then _ else _] => destruct c
           end; try apply Hq; cbn [fst]; unfold EINVAL, ENOTSUP; lia. }
  destruct (Z.eqb_spec (idx buf 0) 4); [apply Hq|lia].
Qed.

(** Routing in [on_ble_data_received]: an empty buffer does nothing; a
    buffer whose first byte is in 0x01..0x04 goes to
    [haptic_process_ble_data] and to nothing else (no [uart_transmit]
    call), and the decoder then never answers [-ENOTSUP]; any other buffer
    leaves the haptic service untouched, whatever the forwarding loop
    does. *)
Theorem on_ble_data_received_routing (fuel : nat) (data : list Z) (len : Z)
    (s : Main.app_state) :
  let res := Main.on_ble_data_received B alloc fuel data len s in
  (len = 0 -> res = Some s) /\
  (len <> 0 ->
   1 <= idx data 0 <= 4 ->
   res = Some {| Main.haptic :=
                   snd (haptic_process_ble_data (Some data) len
                          (Main.haptic s));
                 Main.uart_transmit_calls := Main.uart_transmit_calls s |} /\
   fst (haptic_process_ble_data (Some data) len (Main.haptic s))
   <> - ENOTSUP) /\
  (len <> 0 ->
   ~ 1 <= idx data 0 <= 4 ->
   forall s', res = Some s' -> Main.haptic s' = Main.haptic s).
Proof.
  cbv zeta. unfold Main.on_ble_data_received. split; [|split].
  - intros ->. reflexivity.
  - intros Hlen Hcmd.
    replace (len =? 0) with false by (symmetry; apply Z.eqb_neq; lia).
    replace (idx data 0 >=? 1) with true
      by (symmetry; rewrite Z.geb_leb; apply Z.leb_le; lia).
    replace (idx data 0 <=? 4) with true
      by (symmetry; apply Z.leb_le; lia).
    cbn [andb]. split; [|now apply haptic_command_supported].
    now destruct (haptic_process_ble_data (Some data) len (Main.haptic s)).
  - intros Hlen Hcmd s'.
    replace (len =? 0) with false by (symmetry; apply Z.eqb_neq; lia).
    replace ((idx data 0 >=? 1) && (idx data 0 <=? 4)) with false.
    + destruct (Main.forward_to_uart B alloc fuel data len 0 0
                  (Main.uart_transmit_calls s)); [|discriminate].
      intros H. inversion H. reflexivity.
    + symmetry. apply andb_false_iff. rewrite Z.geb_leb, !Z.leb_gt. lia.
Qed.

(** The forwarding loop from position [pos], when every allocation
    succeeds and the buffer of a [uart_data_t] has at least 2 bytes: it
    ends within [len - pos] passes and hands the rest of the data to
    [uart_transmit] in chunks. *)
Lemma forward_to_uart_chunks (data : list Z) :
  2 <= B ->
  (forall n, alloc n = true) ->
  let len := Z.of_nat (length data) in
  let lf := if idx data (len - 1) =? 13 then [10] else [] in
  forall (fuel : nat) (pos : nat) (n : nat) (calls : list (list Z)),
    (pos < length data)%nat ->
    (length data - pos <= fuel)%nat ->
    exists chunks,
      Main.forward_to_uart B alloc fuel data len (Z.of_nat pos) n calls
      = Some (calls ++ chunks) /\
      concat chunks = skipn pos data ++ lf /\
      Forall (fun c => (1 <= length c)%nat /\ Z.of_nat (length c) <= B)
             chunks.
Proof.
  intros HB Halloc len lf.
  induction fuel as [|fuel IH]; intros pos n calls Hpos Hfuel; [lia|].
  cbn [Main.forward_to_uart].
  replace (Z.of_nat pos =? len) with false
    by (symmetry; apply Z.eqb_neq; unfold len; lia).
  rewrite Halloc. cbn [negb].
  set (t := if len - Z.of_nat pos >? B - 1
            then B - 1 else len - Z.of_nat pos).
  assert (Ht : 1 <= t <= len - Z.of_nat pos /\ t <= B - 1).
  { unfold t. rewrite Z.gtb_ltb.
    destruct (Z.ltb_spec (B - 1) (len - Z.of_nat pos)); unfold len in *; lia. }
  rewrite Nat2Z.id.
  set (chunk := firstn (Z.to_nat t) (skipn pos data)).
  assert (Hcl : length chunk = Z.to_nat t).
  { unfold chunk. rewrite length_firstn, length_skipn. unfold len in Ht. lia. }
  replace (Z.of_nat pos + t) with (Z.of_nat (pos + Z.to_nat t)) by lia.
  destruct (Nat.eq_dec (pos + Z.to_nat t) (length data)) as [Hend|Hmore].
  - (* last chunk *)
    replace (Z.of_nat (pos + Z.to_nat t) =? len) with true
      by (symmetry; apply Z.eqb_eq; unfold len; lia).
    cbn [andb]. fold lf.
    assert (Hwhole : chunk = skipn pos data).
    { unfold chunk. apply firstn_all2. rewrite length_skipn. lia. }
    assert (Hsent :
      firstn (Z.to_nat (snd (if idx data (len - 1) =? 13
                             then (chunk ++ [10], t + 1) else (chunk, t))))
             (fst (if idx data (len - 1) =? 13
                   then (chunk ++ [10], t + 1) else (chunk, t)))
      = chunk ++ lf).
    { unfold lf. destruct (idx data (len - 1) =? 13); cbn [fst snd].
      - apply firstn_all2. rewrite length_app. cbn [length]. lia.
      - rewrite app_nil_r. apply firstn_all2. lia. }
    rewrite Hsent.
    exists [chunk ++ lf]. split; [|split].
    + destruct fuel; cbn [Main.forward_to_uart];
        now replace (Z.of_nat (pos + Z.to_nat t) =? len) with true
          by (symmetry; apply Z.eqb_eq; unfold len; lia).
    + cbn [concat]. now rewrite app_nil_r, Hwhole.
    + constructor; [|constructor]. rewrite length_app.
      unfold lf. destruct (idx data (len - 1) =? 13); cbn [length]; lia.
  - (* more to come *)
    replace (Z.of_nat (pos + Z.to_nat t) =? len) with false
      by (symmetry; apply Z.eqb_neq; unfold len; lia).
    cbn [andb fst snd].
    replace (firstn (Z.to_nat t) chunk) with chunk
      by (symmetry; apply firstn_all2; lia).
    destruct (IH (pos + Z.to_nat t)%nat (S n) (calls ++ [chunk]))
      as [chunks [Hrun [Hcat Hall]]]; [unfold len in Ht; lia|lia|].
    exists (chunk :: chunks). split; [|split].
    + rewrite Hrun, <- app_assoc. reflexivity.
    + cbn [concat]. rewrite Hcat, app_assoc. f_equal.
      unfold chunk.
      transitivity (firstn (Z.to_nat t) (skipn pos data)
                    ++ skipn (Z.to_nat t) (skipn pos data));
        [|apply firstn_skipn].
      f_equal. rewrite skipn_skipn. f_equal. lia.
    + constructor; [lia|exact Hall].
Qed.

(** Forwarding to the UART: a non-empty buffer that is not a haptic
    command is handed to [uart_transmit] whole and in order when the
    allocations succeed and a [uart_data_t] holds at least 2 bytes. The
    loop ends within [len] passes; the chunks, put end to end, are the
    received bytes, followed by one LF when the last byte received is a
    CR; every chunk is non-empty and fits the [uart_data_t] buffer, the LF
    included. The haptic service is not touched. *)
Theorem on_ble_data_received_forwards (fuel : nat) (data : list Z)
    (s : Main.app_state) :
  2 <= B ->
  (forall n, alloc n = true) ->
  data <> [] ->
  ~ 1 <= idx data 0 <= 4 ->
  (length data <= fuel)%nat ->
  let len := Z.of_nat (length data) in
  exists chunks,
    Main.on_ble_data_received B alloc fuel data len s
    = Some {| Main.haptic := Main.haptic s;
              Main.uart_transmit_calls :=
                Main.uart_transmit_calls s ++ chunks |} /\
    concat chunks
    = data ++ (if idx data (len - 1) =? 13 then [10] else []) /\
    Forall (fun c => (1 <= length c)%nat /\ Z.of_nat (length c) <= B) chunks.
Proof.
  intros HB Halloc Hne Hcmd Hfuel len.
  assert (Hlen : (0 < length data)%nat).
  { destruct data; [contradiction|cbn; lia]. }
  destruct (forward_to_uart_chunks data HB Halloc fuel 0%nat 0%nat
              (Main.uart_transmit_calls s) Hlen) as [chunks [Hrun [Hcat Hall]]];
    [lia|].
  exists chunks. split; [|split; [exact Hcat|exact Hall]].
  unfold Main.on_ble_data_received. fold len.
  replace (len =? 0) with false
    by (symmetry; apply Z.eqb_neq; unfold len; lia).
  replace ((idx data 0 >=? 1) && (idx data 0 <=? 4)) with false
    by (symmetry; apply andb_false_iff; rewrite Z.geb_leb, !Z.leb_gt; lia).
  change (Z.of_nat 0) with 0 in Hrun. fold len in Hrun. now rewrite Hrun.
Qed.

End Callback.

(** ** The further properties on concrete inputs *)

Lemma drv2605l_play_sequence_whole_witness :
  exists evs,
    drv2605l_play_sequence env_quiet (Some [1; 1; 1]) 3 drv_ready
    = (0, extend_log evs drv_ready) /\
    map op_of evs =
      [ OpWrite 4 1; OpWrite 5 1; OpWrite 6 1; OpWrite 7 0;
        OpWrite DRV2605L_REG_GO 1 ].
Proof.
  assert (Hbus : bus_never_fails env_quiet) by (intros n; simpl; lia).
  assert (Hlen : (1 <= length [1; 1; 1] <= 8)%nat) by (simpl; lia).
  assert (Hall : Forall effect_in_range [1; 1; 1]).
  { apply all_valid_Forall. reflexivity. }
  exact (drv2605l_play_sequence_whole env_quiet [1; 1; 1] drv_ready
           Hbus eq_refl Hlen Hall).
Defined.

Lemma drv2605l_play_sequence_go_last_witness :
  exists evs,
    snd (drv2605l_play_sequence env_quiet (Some [1; 2; 0]) 3 drv_ready)
    = extend_log evs drv_ready /\
    forall value ret,
      In (BusWrite DRV2605L_REG_GO value ret) evs ->
      exists es,
        Some [1; 2; 0] = Some es /\
        initialized drv_ready = true /\
        Forall effect_in_range (firstn (Z.to_nat (programmed_count 3)) es) /\
        map op_of evs
        = map wr (sequence_writes
                    (firstn (Z.to_nat (programmed_count 3)) es)).
Proof.
  assert (Hc : is_uint8 3) by (unfold is_uint8; lia).
  assert (Hlen : 3 <= Z.of_nat (length [1; 2; 0])) by (simpl; lia).
  exact (drv2605l_play_sequence_go_last env_quiet (Some [1; 2; 0]) 3
           drv_ready Hc Hlen).
Defined.


Lemma drv2605l_auto_calibrate_timeout_iff_witness :
  fst (drv2605l_auto_calibrate env_go_stuck drv_ready_lra) = - ETIMEDOUT.
Proof.
  assert (Hbus : bus_never_fails env_go_stuck) by (intros n; simpl; lia).
  apply (drv2605l_auto_calibrate_timeout_iff env_go_stuck Hbus drv_ready_lra
           eq_refl eq_refl).
  intros k _. unfold go_bit_set. cbn. discriminate.
Defined.

Lemma validation_precedes_allocation_witness :
  fst (haptic_process_ble_data (Some [HAPTIC_CMD_STOP]) 1 (svc_idle 0))
  = - ENOMEM /\
  fst (haptic_process_ble_data (Some [HAPTIC_CMD_PLAY_EFFECT; 0]) 2
         (svc_idle 0))
  = - EINVAL.
Proof.
  assert (H2 : heap_free (svc_idle 1) <> 0%nat) by discriminate.
  split.
  - apply (validation_precedes_allocation (Some [HAPTIC_CMD_STOP]) 1
             (svc_idle 0) (svc_idle 1) eq_refl H2).
    reflexivity.
  - destruct (validation_precedes_allocation
                (Some [HAPTIC_CMD_PLAY_EFFECT; 0]) 2
                (svc_idle 0) (svc_idle 1) eq_refl H2) as [_ H].
    rewrite H; [reflexivity|]. cbn. discriminate.
Defined.

Lemma predefined_pattern_played_whole_witness :
  exists r evs,
    haptic_process_ble_data (Some [HAPTIC_CMD_PLAY_PATTERN; 3]) 2 (svc_idle 4)
    = (0, enqueued r (svc_idle 4)) /\
    type r = HAPTIC_PATTERN_SEQUENCE /\
    data r = pattern_effects 3 /\
    (1 <= length (pattern_effects 3) <= 3)%nat /\
    drv2605l_play_sequence env_quiet (Some (data r)) (len r) drv_ready
    = (0, extend_log evs drv_ready) /\
    map op_of evs =
      map wr (slot_writes 0 (pattern_effects 3))
      ++ [ OpWrite (DRV2605L_REG_WAVESEQ1
                    + Z.of_nat (length (pattern_effects 3))) 0;
           OpWrite DRV2605L_REG_GO 1 ].
Proof.
  assert (Hbus : bus_never_fails env_quiet) by (intros n; simpl; lia).
  assert (Hp : 0 <= 3 <= 11) by lia.
  assert (Hheap : heap_free (svc_idle 4) <> 0%nat) by discriminate.
  exact (predefined_pattern_played_whole env_quiet 3 (svc_idle 4) drv_ready
           Hbus Hp Hheap eq_refl).
Defined.

Lemma on_ble_data_received_forwards_witness :
  exists chunks,
    Main.on_ble_data_received 40 (fun _ => true) 3 [104; 105; 13] 3 app_idle
    = Some {| Main.haptic := Main.haptic app_idle;
              Main.uart_transmit_calls :=
                Main.uart_transmit_calls app_idle ++ chunks |} /\
    concat chunks = [104; 105; 13] ++ [10] /\
    Forall (fun c => (1 <= length c)%nat /\ Z.of_nat (length c) <= 40) chunks.
Proof.
  assert (HB : 2 <= 40) by lia.
  assert (Hne : [104; 105; 13] <> []) by discriminate.
  assert (Hcmd : ~ 1 <= idx [104; 105; 13] 0 <= 4) by (cbn; lia).
  assert (Hfuel : (length [104; 105; 13] <= 3)%nat) by (simpl; lia).
  exact (on_ble_data_received_forwards 40 (fun _ => true) 3 [104; 105; 13]
           app_idle HB (fun _ => eq_refl) Hne Hcmd Hfuel).
Defined.

(** ** From a sequence command to the registers *)

Lemma sequence_command_accepted (N : Z) (tail : list Z) (s : svc_state) :
  is_uint8 N ->
  heap_free s <> 0%nat ->
  let buf := HAPTIC_CMD_PLAY_SEQUENCE :: N :: tail in
  let res := haptic_process_ble_data (Some buf) (Z.of_nat (length buf)) s in
  let kept := firstn (Z.to_nat (Z.min N HAPTIC_MAX_DATA_SIZE)) tail in
  fst res = 0 ->
  1 <= N <= Z.of_nat (length tail) /\
  all_valid kept = true /\
  snd res = enqueued {| type := HAPTIC_PATTERN_SEQUENCE;
                        data := kept;
                        len := Z.min N HAPTIC_MAX_DATA_SIZE |} s.
Proof.
  intros HN Hheap buf res kept. unfold res, haptic_process_ble_data.
  assert (Hlen : Z.of_nat (length buf) = 2 + Z.of_nat (length tail)).
  { unfold buf. simpl length. lia. }
  rewrite Hlen.
  replace (2 + Z.of_nat (length tail) <? 1) with false
    by (symmetry; apply Z.ltb_ge; lia).
  replace (2 + Z.of_nat (length tail) <? 2) with false
    by (symmetry; apply Z.ltb_ge; lia).
  change (idx buf 0) with HAPTIC_CMD_PLAY_SEQUENCE.
  change (idx buf 1) with N.
  change (skipn 2 buf) with tail.
  change (HAPTIC_CMD_PLAY_SEQUENCE =? HAPTIC_CMD_PLAY_EFFECT) with false.
  change (HAPTIC_CMD_PLAY_SEQUENCE =? HAPTIC_CMD_PLAY_SEQUENCE) with true.
  cbv iota zeta. unfold is_uint8 in HN.
  destruct (Z.ltb_spec (2 + Z.of_nat (length tail)) (2 + N)) as [Hshort|Hfit];
    [cbn [fst]; unfold EINVAL; lia|].
  destruct (Z.eq_dec N 0) as [HN0|Hnz].
  { unfold haptic_play_sequence. rewrite HN0. cbn [Z.eqb fst].
    unfold EINVAL. lia. }
  rewrite haptic_play_sequence_eq by (assumption || lia). fold kept.
  destruct (all_valid kept); cbn [fst snd];
    [intros _; repeat split; lia|unfold EINVAL; lia].
Qed.

(** What is played of a sequence command: when the buffer
    [0x02, N, e_1, ...] is accepted, the request it queues, played by
    [drv2605l_play_sequence] on an initialized driver (bus without
    failures), programs exactly the first [min N 8] effects of the buffer,
    then the terminator if fewer than 8 slots are used, then GO, and
    returns 0. Effects 9 to 32 of the command are validated and queued but
    never reach the device. *)
Theorem sequence_command_played (env : i2c_env) (N : Z) (tail : list Z)
    (s : svc_state) (d : drv_state) :
  bus_never_fails env ->
  is_uint8 N ->
  heap_free s <> 0%nat ->
  initialized d = true ->
  let buf := HAPTIC_CMD_PLAY_SEQUENCE :: N :: tail in
  let res := haptic_process_ble_data (Some buf) (Z.of_nat (length buf)) s in
  fst res = 0 ->
  exists r evs,
    snd res = enqueued r s /\
    type r = HAPTIC_PATTERN_SEQUENCE /\
    drv2605l_play_sequence env (Some (data r)) (len r) d
    = (0, extend_log evs d) /\
    map op_of evs
    = map wr (sequence_writes
                (firstn (Z.to_nat (Z.min N DRV2605L_MAX_WAVEFORM_SEQ)) tail)).
Proof.
  intros Hbus HN Hheap Hini buf res Hok.
  destruct (sequence_command_accepted N tail s HN Hheap Hok)
    as [HNl [Hv Hs]].
  fold res in Hs.
  set (m := Z.min N HAPTIC_MAX_DATA_SIZE) in *.
  set (kept := firstn (Z.to_nat m) tail) in *.
  assert (Hm : 1 <= m <= 32) by (unfold m, HAPTIC_MAX_DATA_SIZE; lia).
  assert (Hkl : length kept = Z.to_nat m).
  { unfold kept. rewrite length_firstn.
    unfold m, HAPTIC_MAX_DATA_SIZE in *. lia. }
  assert (Hc : 1 <= m <= 255) by lia.
  pose proof (drv2605l_play_sequence_eq env kept m d Hini Hc) as Heq.
  cbv zeta in Heq.
  assert (Hl : reads kept (Z.to_nat (programmed_count m)) 0
               = firstn (Z.to_nat (Z.min N DRV2605L_MAX_WAVEFORM_SEQ)) tail).
  { rewrite reads_from_start
      by (unfold programmed_count, DRV2605L_MAX_WAVEFORM_SEQ; lia).
    unfold kept. rewrite firstn_firstn. f_equal.
    unfold programmed_count, m, HAPTIC_MAX_DATA_SIZE,
      DRV2605L_MAX_WAVEFORM_SEQ. lia. }
  rewrite Hl in Heq.
  set (l := firstn (Z.to_nat (Z.min N DRV2605L_MAX_WAVEFORM_SEQ)) tail) in *.
  assert (Hlv : all_valid l = true).
  { apply all_valid_Forall. apply all_valid_Forall in Hv.
    rewrite Forall_forall in *. intros e He. apply Hv.
    unfold l in He. unfold kept.
    rewrite <- (firstn_skipn (Z.to_nat (Z.min N DRV2605L_MAX_WAVEFORM_SEQ))
                  (firstn (Z.to_nat m) tail)).
    apply in_or_app. left. rewrite firstn_firstn.
    replace (Init.Nat.min (Z.to_nat (Z.min N DRV2605L_MAX_WAVEFORM_SEQ))
                          (Z.to_nat m))
      with (Z.to_nat (Z.min N DRV2605L_MAX_WAVEFORM_SEQ))
      by (unfold m, HAPTIC_MAX_DATA_SIZE, DRV2605L_MAX_WAVEFORM_SEQ; lia).
    exact He. }
  rewrite Hlv in Heq.
  destruct (run_writes_ok env Hbus (sequence_writes l) 0 d)
    as [evs [Hrun Hops]].
  exists {| type := HAPTIC_PATTERN_SEQUENCE; data := kept; len := m |}, evs.
  cbn [type data len]. rewrite Heq, Hrun. now repeat split.
Qed.

Lemma sequence_command_played_witness :
  exists r evs,
    snd (haptic_process_ble_data
           (Some [HAPTIC_CMD_PLAY_SEQUENCE; 3; 1; 1; 1]) 5 (svc_idle 4))
    = enqueued r (svc_idle 4) /\
    type r = HAPTIC_PATTERN_SEQUENCE /\
    drv2605l_play_sequence env_quiet (Some (data r)) (len r) drv_ready
    = (0, extend_log evs drv_ready) /\
    map op_of evs
    = map wr (sequence_writes [1; 1; 1]).
Proof.
  assert (Hbus : bus_never_fails env_quiet) by (intros n; simpl; lia).
  assert (HN : is_uint8 3) by (unfold is_uint8; lia).
  assert (Hheap : heap_free (svc_idle 4) <> 0%nat) by discriminate.
  exact (sequence_command_played env_quiet 3 [1; 1; 1] (svc_idle 4) drv_ready
           Hbus HN Hheap eq_refl eq_refl).
Defined.


(** The handshake from boot: on a responsive device the initialization
    succeeds and the haptic thread gets past [haptic_wait_init]; with the
    bus device not ready it fails and the thread stays blocked. *)
Lemma haptic_service_init_handshake_witness :
  (fst (haptic_service_init env_quiet (sys_boot 4)) = 0 /\
   haptic_wait_init (snd (haptic_service_init env_quiet (sys_boot 4)))
   <> None) /\
  (fst (haptic_service_init env_not_ready (sys_boot 4)) = - ENODEV /\
   haptic_init_ok (snd (haptic_service_init env_not_ready (sys_boot 4)))
   = haptic_init_ok (sys_boot 4) /\
   initialized
     (driver (snd (haptic_service_init env_not_ready (sys_boot 4))))
   = false).
Proof.
  split.
  - split; [reflexivity|].
    destruct (haptic_service_init_handshake env_quiet (sys_boot 4))
      as [_ [Hok _]].
    apply Hok. reflexivity.
  - split; [reflexivity|].
    destruct (haptic_service_init_handshake env_not_ready (sys_boot 4))
      as [_ [_ [Hfail _]]].
    destruct Hfail as [_ [Hsem Hini]]; [vm_compute; discriminate|].
    split; [exact Hsem|exact Hini].
Defined.
